(** * The cleaning-rule execution engine of [cdr_cleaner/clean_cdr_engine.py]

    A shallow embedding of the engine (parameter resolver, rule adapter,
    query job runner, pipeline driver and the job-configuration builder) and
    the properties of it that the specification states.

    Python values are a small universe [value]; dictionaries with string
    keys are [gmap string value]; exceptions are results [exn + A]; the
    effectful functions run in a state-and-exception monad over a state
    that holds the warehouse, the heap of rule instances and the trace of
    calls made to the collaborators. *)

From Stdlib Require Import Ascii String.
From stdpp Require Import gmap strings list pretty.

Local Open Scope string_scope.
Local Open Scope list_scope.

(** ** Python values *)

Inductive value :=
  | VNone
  | VBool (b : bool)
  | VStr (s : string).

#[global] Instance value_eq_dec : EqDecision value.
Proof. solve_decision. Defined.

(** [str(v)], as an f-string replacement field renders it. *)
Definition format (v : value) : string :=
  match v with
  | VNone => "None"
  | VBool true => "True"
  | VBool false => "False"
  | VStr s => s
  end.

(** Truth value of [v], as [if v:] tests it. *)
Definition truthy (v : value) : bool :=
  match v with
  | VNone => false
  | VBool b => b
  | VStr s => negb (String.eqb s "")
  end.

(** [repr] of a string without quotes or escapes in it, and of a list of
    such strings. *)
Definition repr_str (s : string) : string := "'" +:+ s +:+ "'".

Definition repr_list (l : list string) : string :=
  "[" +:+ String.concat ", " (repr_str <$> l) +:+ "]".

(** ** Exceptions *)

Inductive exn_class :=
  | GoogleCloudError
  | TOError
  | RuntimeError
  | ValueError
  | TypeError
  | KeyError
  | AttributeError
  | OSError
  | IndexError
  | OtherError.

#[global] Instance exn_class_eq_dec : EqDecision exn_class.
Proof. solve_decision. Defined.

Record exn := Exn { exn_type : exn_class; exn_msg : string }.

#[global] Instance exn_eq_dec : EqDecision exn.
Proof. solve_decision. Defined.

(** A computation that returns or raises. *)
Definition result (A : Type) : Type := exn + A.

Definition raise {A} (e : exn) : result A := inl e.

Definition rbind {A B} (r : result A) (k : A -> result B) : result B :=
  match r with
  | inl e => inl e
  | inr a => k a
  end.

Definition raised {A} (r : result A) : Prop := exists e, r = inl e.

Declare Scope result_scope.
Delimit Scope result_scope with result.
Notation "'try!' x := r 'in' k" := (rbind r (fun x => k))
  (at level 10, x pattern, r at level 100, k at level 200) : result_scope.

(** ** Dictionaries *)

Abbreviation dict := (gmap string value).

(** [d.get(k)] and [d.get(k, dflt)]. *)
Definition dict_get (d : dict) (k : string) : value := default VNone (d !! k).
Definition dict_get_default (d : dict) (k : string) (dflt : value) : value :=
  default dflt (d !! k).

(** [d[k]]. *)
Definition dict_getitem (d : dict) (k : string) : result value :=
  match d !! k with
  | Some v => inr v
  | None => raise (Exn KeyError (repr_str k))
  end.

(** ** The constants modules, which the engine imports *)

(** [constants.cdr_cleaner.clean_cdr]: the keys of a query dictionary. *)
Record clean_cdr_consts := {
  QUERY : string;
  DESTINATION_TABLE : string;
  DESTINATION_DATASET : string;
  DISPOSITION : string;
  LEGACY_SQL : string;
}.

(** [constants.bq_utils]. *)
Record bq_utils_consts := {
  WRITE_EMPTY : value;
}.

(** ** Job configuration *)

(** [google.cloud.bigquery.TableReference]. *)
Record TableReference := {
  tr_project : string;
  tr_dataset_id : string;
  tr_table_id : string;
}.

(** [google.cloud.bigquery.job.QueryJobConfig]: a property is [None] until
    it is assigned; reading an unassigned property gives Python's [None]. *)
Record QueryJobConfig := {
  destination : option TableReference;
  use_legacy_sql : option value;
  allow_large_results : option value;
  write_disposition : option value;
}.

Definition QueryJobConfig_new : QueryJobConfig :=
  {| destination := None; use_legacy_sql := None;
     allow_large_results := None; write_disposition := None |}.

(** Property getters and setters. *)
Definition get_use_legacy_sql (c : QueryJobConfig) : value :=
  default VNone (use_legacy_sql c).
Definition get_allow_large_results (c : QueryJobConfig) : value :=
  default VNone (allow_large_results c).
Definition get_write_disposition (c : QueryJobConfig) : value :=
  default VNone (write_disposition c).

Definition set_destination (t : TableReference) (c : QueryJobConfig) :=
  {| destination := Some t; use_legacy_sql := use_legacy_sql c;
     allow_large_results := allow_large_results c;
     write_disposition := write_disposition c |}.
Definition set_use_legacy_sql (v : value) (c : QueryJobConfig) :=
  {| destination := destination c; use_legacy_sql := Some v;
     allow_large_results := allow_large_results c;
     write_disposition := write_disposition c |}.
Definition set_allow_large_results (v : value) (c : QueryJobConfig) :=
  {| destination := destination c; use_legacy_sql := use_legacy_sql c;
     allow_large_results := Some v;
     write_disposition := write_disposition c |}.
Definition set_write_disposition (v : value) (c : QueryJobConfig) :=
  {| destination := destination c; use_legacy_sql := use_legacy_sql c;
     allow_large_results := allow_large_results c;
     write_disposition := Some v |}.

Section JobConfig.
Variable cdr_consts : clean_cdr_consts.
Variable bq_consts : bq_utils_consts.
(** [gbq.TableReference.from_string], of the warehouse library. *)
Variable TableReference_from_string : string -> result TableReference.

Definition generate_job_config (project_id : string) (query_dict : dict)
  : result QueryJobConfig :=
  let job_config := QueryJobConfig_new in
  if decide (dict_get query_dict (DESTINATION_TABLE cdr_consts) = VNone)
  then inr job_config
  else
    (try! dataset := dict_getitem query_dict (DESTINATION_DATASET cdr_consts) in
     try! table := dict_getitem query_dict (DESTINATION_TABLE cdr_consts) in
     try! destination_table :=
       TableReference_from_string
         (project_id +:+ "." +:+ format dataset +:+ "." +:+ format table) in
     let job_config := set_destination destination_table job_config in
     let job_config :=
       set_use_legacy_sql
         (dict_get_default query_dict (LEGACY_SQL cdr_consts) (VBool false))
         job_config in
     (* allow_large_results can only be used if use_legacy_sql=True *)
     let job_config :=
       set_allow_large_results (get_use_legacy_sql job_config) job_config in
     let job_config :=
       set_write_disposition
         (dict_get_default query_dict (DISPOSITION cdr_consts)
            (WRITE_EMPTY bq_consts))
         job_config in
     inr job_config)%result.

End JobConfig.

(** ** Rules, jobs and the trace of calls *)

(** [inspect.Parameter]: [param_default = None] is [inspect.Parameter.empty]. *)
Record inspect_Parameter := {
  param_default : option value;
}.

#[global] Instance inspect_Parameter_eq_dec : EqDecision inspect_Parameter.
Proof. solve_decision. Defined.

(** What reflection tells about a class, a function or a bound method:
    its [__name__], the [__name__] of the module [inspect.getmodule] finds
    (or [None] when it finds none) and the line [inspect.getsourcelines]
    reports (or the exception it raises). *)
Record inspected := {
  obj_name : string;
  obj_module : option string;
  obj_sourcelines : result nat;
}.

(** [inspect.getmodule(obj).__name__] *)
Definition getmodule_name (i : inspected) : result string :=
  match obj_module i with
  | Some m => inr m
  | None =>
      raise (Exn AttributeError
               "'NoneType' object has no attribute '__name__'")
  end.

(** [google.cloud.bigquery.job.QueryJob], a handle on a job in the
    warehouse, where its status lives. *)
Record QueryJob := {
  job_id : string;
}.

#[global] Instance QueryJob_eq_dec : EqDecision QueryJob.
Proof. solve_decision. Defined.

(** [function_name], [module_name] and [line_no] of [rule_info]. *)
Record rule_metadata := {
  function_name : string;
  module_name : string;
  line_no : nat;
}.

(** The two calls of [FAILURE_MESSAGE_TEMPLATE.render] in [run_queries]:
    with the project and the job as positional arguments, and with
    keywords and the exception. *)
Inductive failure_render_args :=
  | FailedJob (project : string) (query_job : QueryJob)
      (rule_info : rule_metadata) (query_dict : dict)
  | FailedCall (project_id : string) (rule_info : rule_metadata)
      (query_dict : dict) (exception : exn).

(** [constants.cdr_cleaner.clean_cdr_engine]: the names the engine passes
    itself, and the message templates with their [render]. *)
Record clean_cdr_engine_consts := {
  CLEAN_ENGINE_REQUIRED_PARAMS : gset string;
  QUERY_RUN_MESSAGE_TEMPLATE : nat -> nat -> rule_metadata -> result string;
  SUCCESS_MESSAGE_TEMPLATE :
    string -> QueryJob -> nat -> nat -> rule_metadata -> result string;
  FAILURE_MESSAGE_TEMPLATE : failure_render_args -> result string;
}.

Inductive level := INFO | WARNING | ERROR.

(** A call the engine makes to a collaborator, with its outcome: the
    logger, the code of a rule, the warehouse client. An instance is named
    by its address in the heap. *)
Inductive event :=
  | EvLog (lvl : level) (msg : string)
  | EvInstantiate (name : string) (args : list value) (kwargs : dict)
      (res : result nat)
  | EvSetupRule (instance : nat) (res : result unit)
  | EvGetQuerySpecs (instance : nat) (res : result (list dict))
  | EvLegacyCall (name : string) (args : list value) (kwargs : dict)
      (res : result (list dict))
  | EvQuery (query : value) (job_config : QueryJobConfig)
      (job_id_prefix : string) (res : result QueryJob)
  | EvResult (query_job : QueryJob) (res : result unit)
  | EvErrors (query_job : QueryJob) (errors : list string).

(** What a trace shows: the queries given to [client.query], those of
    them that gave a job, with the job; the error lists read from completed
    jobs; the query lists the rules produced; the constructor calls; the
    warnings. *)
Definition query_call (ev : event) : option value :=
  match ev with
  | EvQuery query _ _ _ => Some query
  | _ => None
  end.

Definition submission (ev : event) : option (value * QueryJob) :=
  match ev with
  | EvQuery query _ _ (inr query_job) => Some (query, query_job)
  | _ => None
  end.

Definition error_read (ev : event) : option (QueryJob * list string) :=
  match ev with
  | EvErrors query_job errors => Some (query_job, errors)
  | _ => None
  end.

Definition produced_list (ev : event) : option (list dict) :=
  match ev with
  | EvGetQuerySpecs _ (inr query_list) => Some query_list
  | EvLegacyCall _ _ _ (inr query_list) => Some query_list
  | _ => None
  end.

Definition instantiation (ev : event) : option (list value) :=
  match ev with
  | EvInstantiate _ args _ _ => Some args
  | _ => None
  end.

Definition warning (ev : event) : option string :=
  match ev with
  | EvLog WARNING msg => Some msg
  | _ => None
  end.

Definition query_calls (evs : list event) : list value := omap query_call evs.
Definition submissions (evs : list event) : list (value * QueryJob) :=
  omap submission evs.
Definition error_reads (evs : list event) : list (QueryJob * list string) :=
  omap error_read evs.
Definition produced (evs : list event) : list (list dict) :=
  omap produced_list evs.
Definition instantiations (evs : list event) : list (list value) :=
  omap instantiation evs.
Definition warnings (evs : list event) : list string := omap warning evs.

(** The calls of [result()], with the job and the outcome. *)
Definition result_call (ev : event) : option (QueryJob * result unit) :=
  match ev with
  | EvResult query_job res => Some (query_job, res)
  | _ => None
  end.

Definition result_calls (evs : list event) : list (QueryJob * result unit) :=
  omap result_call evs.

(** ** String helpers *)

(** [s.split('.')] *)
Fixpoint split_dot_aux (s : string) (cur : string) : list string :=
  match s with
  | EmptyString => [String.rev cur]
  | String c s' =>
      if Ascii.eqb c "."%char then String.rev cur :: split_dot_aux s' ""
      else split_dot_aux s' (String c cur)
  end.

Definition split_dot (s : string) : list string := split_dot_aux s "".

(** [l[-1]] of a list that is not empty *)
Definition last_item (l : list string) : string := List.last l "".

(** [s[:n]] *)
Definition str_prefix (n : nat) (s : string) : string := String.substring 0 n s.

(** ** Calling a function that ends in [**kwargs]

    A call [f(a1, ..., an, **options)] of [def f(p1, ..., pn, **kwargs)]:
    the options become [kwargs], unless one of them is named like a
    parameter that has its value by position already, which is a
    [TypeError] raised before the body of [f] starts. The message names the
    option: where several collide the interpreter names the first of the
    call, here it is the first of the signature. *)
Definition colliding (params : list string) (options : dict) : list string :=
  filter (fun k => k ∈ dom options) params.

Definition multiple_values (function k : string) : exn :=
  Exn TypeError
    (function +:+ "() got multiple values for argument " +:+ repr_str k).

Definition var_keywords (function : string) (params : list string)
    (options : dict) : result dict :=
  match colliding params options with
  | [] => inr options
  | k :: _ => raise (multiple_values function k)
  end.

(** No option is named like one of the parameters. *)
Definition free_of (params : list string) (options : dict) : Prop :=
  Forall (fun k => options !! k = None) params.

#[global] Instance free_of_dec params options : Decision (free_of params options).
Proof. unfold free_of. apply _. Defined.

Section Engine.
Context {W Credentials : Type}.

(** [BigQueryClient], built with a project and optional credentials. *)
Record BigQueryClient := {
  project : string;
  credentials : option Credentials;
}.

(** A structured rule: a subclass of [BaseCleaningRule]. Its instances
    have their attributes in a dictionary. The code of a rule is any Python
    code: the constructor, [get_query_specs] and [setup_rule] read and
    change [W], which stands for the warehouse and for whatever else
    outside the engine a rule can reach; the two methods read and change
    the attributes of their instance as well. *)
Record CleaningRuleClass := {
  cls_init : list value -> dict -> W -> result dict * W;
  cls_get_query_specs : dict -> W -> result (list dict) * dict * W;
  cls_setup_rule : BigQueryClient -> dict -> W -> result unit * dict * W;
  cls_get_query_specs_info : inspected;
}.

(** [inspect.isclass(clazz) and issubclass(clazz, BaseCleaningRule)], or
    any other callable: an old style clean function. *)
Inductive rule_shape :=
  | StructuredRule (cls : CleaningRuleClass)
  | LegacyRule (f : list value -> dict -> W -> result (list dict) * W).

(** A cleaning rule as the engine receives it. *)
Record clazz := {
  clazz_info : inspected;
  clazz_signature : list (string * inspect_Parameter);
  clazz_shape : rule_shape;
}.

(** The collaborators outside the repository. *)
Record collaborators := {
  get_impersonation_credentials : value -> result Credentials;
  Client_init : string -> option Credentials -> result unit;
  TableReference_from_string : string -> result TableReference;
  client_query :
    BigQueryClient -> value -> QueryJobConfig -> string -> W ->
    result QueryJob * W;
  query_job_result : QueryJob -> W -> result unit * W;
  query_job_errors : QueryJob -> W -> list string;
}.

(** ** State and monad *)

Record state := {
  warehouse : W;
  heap : list dict;
  trace : list event;
}.

Definition M (A : Type) : Type := state -> result A * state.

Definition ret {A} (a : A) : M A := fun st => (inr a, st).

Definition bind {A B} (m : M A) (k : A -> M B) : M B :=
  fun st =>
    match m st with
    | (inl e, st') => (inl e, st')
    | (inr a, st') => k a st'
    end.

Definition lift {A} (r : result A) : M A := fun st => (r, st).

Definition emit (ev : event) : M unit :=
  fun st =>
    (inr tt,
     {| warehouse := warehouse st; heap := heap st;
        trace := trace st ++ [ev] |}).

Definition log (lvl : level) (msg : string) : M unit := emit (EvLog lvl msg).

(** [try: body except <caught>: handler] *)
Definition try_except {A} (body : M A) (caught : exn -> bool)
    (handler : exn -> M A) : M A :=
  fun st =>
    match body st with
    | (inl e, st') => if caught e then handler e st' else (inl e, st')
    | (inr a, st') => (inr a, st')
    end.

Notation "'let!' x := m 'in' k" := (bind m (fun x => k))
  (at level 10, x pattern, m at level 100, k at level 200).

(** ** The engine *)

Variable cdr_consts : clean_cdr_consts.
Variable bq_consts : bq_utils_consts.
Variable ce_consts : clean_cdr_engine_consts.
Variable world : collaborators.

(** *** Parameter resolver *)

(** [get_rule_args] *)
Definition get_rule_args (c : clazz) : list (string * bool) :=
  (fun np => (np.1, bool_decide (param_default np.2 = None)))
    <$> clazz_signature c.

(** The locals of [get_custom_kwargs]: [rule_params], the filtered [kwargs]
    and, from the filtered [kwargs], [missing]. *)
Definition rule_params (c : clazz) : list (string * inspect_Parameter) :=
  filter (fun kv => kv.1 ∉ CLEAN_ENGINE_REQUIRED_PARAMS ce_consts)
    (clazz_signature c).

Definition filtered_kwargs (c : clazz) (kwargs : dict) : dict :=
  filter (fun kv => kv.1 ∈ (rule_params c).*1) kwargs.

Definition missing (c : clazz) (kwargs : dict) : list string :=
  (filter
     (fun kv => (kv.1 ∉ dom kwargs) ∧ (param_default kv.2 = None))
     (rule_params c)).*1.

Definition missing_message (missing : list string) (name : string) : string :=
  "Params " +:+ repr_list missing +:+ " " +:+
  "not provided for cleaning rule " +:+ name.

(** [get_custom_kwargs(clazz, **kwargs)], from the rule and the options of
    the call. *)
Definition get_custom_kwargs_params : list string := ["clazz"].

Definition get_custom_kwargs (c : clazz) (kwargs : dict) : result dict :=
  (try! kwargs :=
     var_keywords "get_custom_kwargs" get_custom_kwargs_params kwargs in
   let kwargs := filtered_kwargs c kwargs in
   let missing := missing c kwargs in
   if decide (missing = [])
   then inr kwargs
   else raise (Exn ValueError
                 (missing_message missing (obj_name (clazz_info c)))))%result.

(** What the specification says of parameter names: a name the rule
    declares and the engine does not pass itself; such a name without
    default and without supplied value. *)
Definition declared (c : clazz) (k : string) : Prop :=
  (k ∈ (clazz_signature c).*1)
  ∧ (k ∉ CLEAN_ENGINE_REQUIRED_PARAMS ce_consts).

Definition required_and_absent (c : clazz) (kwargs : dict) (k : string)
  : Prop :=
  exists p, ((k, p) ∈ clazz_signature c)
            ∧ (k ∉ CLEAN_ENGINE_REQUIRED_PARAMS ce_consts)
            ∧ param_default p = None
            ∧ kwargs !! k = None.

#[global] Instance declared_dec c k : Decision (declared c k).
Proof. unfold declared. apply _. Defined.

(** *** Rule adapter *)

Record rule_info := {
  ri_query_function : M (list dict);
  ri_setup_function : BigQueryClient -> M unit;
  ri_metadata : rule_metadata;
}.

(** The call of the class [clazz] with positional and keyword arguments, for a
    structured rule: the new instance is
    put in the heap. *)
Definition instantiate (c : clazz) (cls : CleaningRuleClass)
    (args : list value) (kwargs : dict) : M nat :=
  fun st =>
    let out := cls_init cls args kwargs (warehouse st) in
    let res :=
      match out.1 with
      | inl e => inl e
      | inr _ => inr (length (heap st))
      end in
    (res,
     {| warehouse := out.2;
        heap := match out.1 with
                | inl _ => heap st
                | inr attrs => heap st ++ [attrs]
                end;
        trace := trace st
                 ++ [EvInstantiate (obj_name (clazz_info c)) args kwargs res] |}).

Definition dangling : exn := Exn OtherError "no such instance".

(** The bound method [instance.get_query_specs]. *)
Definition bound_get_query_specs (cls : CleaningRuleClass) (instance : nat)
  : M (list dict) :=
  fun st =>
    match heap st !! instance with
    | None => (inl dangling, st)
    | Some attrs =>
        let '(res, attrs', w') := cls_get_query_specs cls attrs (warehouse st) in
        (res,
         {| warehouse := w'; heap := <[instance := attrs']> (heap st);
            trace := trace st ++ [EvGetQuerySpecs instance res] |})
    end.

(** The bound method [instance.setup_rule]. *)
Definition bound_setup_rule (cls : CleaningRuleClass) (instance : nat)
    (client : BigQueryClient) : M unit :=
  fun st =>
    match heap st !! instance with
    | None => (inl dangling, st)
    | Some attrs =>
        let '(res, attrs', w') := cls_setup_rule cls client attrs (warehouse st) in
        (res,
         {| warehouse := w'; heap := <[instance := attrs']> (heap st);
            trace := trace st ++ [EvSetupRule instance res] |})
    end.

(** The closure [query_function] of an old style clean function. *)
Definition legacy_query_function (c : clazz)
    (f : list value -> dict -> W -> result (list dict) * W)
    (args : list value) (kwargs : dict) : M (list dict) :=
  fun st =>
    let out := f args kwargs (warehouse st) in
    (out.1,
     {| warehouse := out.2; heap := heap st;
        trace := trace st
                 ++ [EvLegacyCall (obj_name (clazz_info c)) args kwargs out.1] |}).

Definition is_TypeError (e : exn) : bool := bool_decide (exn_type e = TypeError).

Definition table_namer_warning (c : clazz) : string :=
  obj_name (clazz_info c) +:+ " does not accept the "
  +:+ "`table_namer` property yet.".

(** The [try] statement of [infer_rule] that gives [instance]. *)
Definition new_instance (c : clazz) (cls : CleaningRuleClass)
    (project_id : string) (dataset_id sandbox_dataset_id table_namer : value)
    (kwargs : dict) : M nat :=
  try_except
    (instantiate c cls
       [VStr project_id; dataset_id; sandbox_dataset_id; table_namer] kwargs)
    is_TypeError
    (fun e =>
       let! _ := log WARNING (table_namer_warning c) in
       instantiate c cls [VStr project_id; dataset_id; sandbox_dataset_id]
         kwargs).

Definition infer_rule_params : list string :=
  ["clazz"; "project_id"; "dataset_id"; "sandbox_dataset_id"; "table_namer"].

Definition infer_rule (c : clazz) (project_id : string)
    (dataset_id sandbox_dataset_id table_namer : value) (kwargs : dict)
  : M (M (list dict) * (BigQueryClient -> M unit) * rule_info) :=
  let! kwargs := lift (var_keywords "infer_rule" infer_rule_params kwargs) in
  let! kwargs := lift (get_custom_kwargs c kwargs) in
  match clazz_shape c with
  | StructuredRule cls =>
      let! instance :=
        new_instance c cls project_id dataset_id sandbox_dataset_id
          table_namer kwargs in
      let query_function := bound_get_query_specs cls instance in
      let setup_function := bound_setup_rule cls instance in
      let function_name := obj_name (cls_get_query_specs_info cls) in
      let! module_name := lift (getmodule_name (cls_get_query_specs_info cls)) in
      let! line_no := lift (obj_sourcelines (cls_get_query_specs_info cls)) in
      let rule_info :=
        {| ri_query_function := query_function;
           ri_setup_function := setup_function;
           ri_metadata := {| function_name := function_name;
                             module_name := module_name;
                             line_no := line_no |} |} in
      ret (query_function, setup_function, rule_info)
  | LegacyRule f =>
      let function_name := obj_name (clazz_info c) in
      let! module_name := lift (getmodule_name (clazz_info c)) in
      let! line_no := lift (obj_sourcelines (clazz_info c)) in
      let query_function :=
        legacy_query_function c f
          [VStr project_id; dataset_id; sandbox_dataset_id] kwargs in
      let setup_function := fun _ : BigQueryClient => ret tt in
      let rule_info :=
        {| ri_query_function := query_function;
           ri_setup_function := setup_function;
           ri_metadata := {| function_name := function_name;
                             module_name := module_name;
                             line_no := line_no |} |} in
      ret (query_function, setup_function, rule_info)
  end.

(** The object whose name, module and line the adapter looks up: the
    bound method [get_query_specs] of a structured rule, the function itself
    of an old style rule. *)
Definition described (c : clazz) : inspected :=
  match clazz_shape c with
  | StructuredRule cls => cls_get_query_specs_info cls
  | LegacyRule _ => clazz_info c
  end.

(** *** Query job runner *)

(** [client.query(query=..., job_config=..., job_id_prefix=...)] *)
Definition call_client_query (client : BigQueryClient) (query : value)
    (job_config : QueryJobConfig) (job_id_prefix : string) : M QueryJob :=
  fun st =>
    let '(res, w') :=
      client_query world client query job_config job_id_prefix (warehouse st) in
    (res,
     {| warehouse := w'; heap := heap st;
        trace := trace st ++ [EvQuery query job_config job_id_prefix res] |}).

(** [query_job.result()] *)
Definition call_result (query_job : QueryJob) : M unit :=
  fun st =>
    let '(res, w') := query_job_result world query_job (warehouse st) in
    (res,
     {| warehouse := w'; heap := heap st;
        trace := trace st ++ [EvResult query_job res] |}).

(** [query_job.errors]; [None] reads as the empty list. *)
Definition read_errors (query_job : QueryJob) : M (list string) :=
  fun st =>
    let errors := query_job_errors world query_job (warehouse st) in
    (inr errors,
     {| warehouse := warehouse st; heap := heap st;
        trace := trace st ++ [EvErrors query_job errors] |}).

(** [except (GoogleCloudError, TOError) as exp] *)
Definition is_cloud_or_timeout (e : exn) : bool :=
  bool_decide (exn_type e = GoogleCloudError)
  || bool_decide (exn_type e = TOError).

(** The [try] block up to the call of [client.query]. *)
Definition submit_query (client : BigQueryClient) (info : rule_info)
    (query_count query_no : nat) (query_dict : dict) : M QueryJob :=
  let! msg := lift (QUERY_RUN_MESSAGE_TEMPLATE ce_consts query_no query_count
                      (ri_metadata info)) in
  let! _ := log INFO msg in
  let! job_config :=
    lift (generate_job_config cdr_consts bq_consts
            (TableReference_from_string world) (project client) query_dict) in
  let module_short_name :=
    str_prefix 10 (last_item (split_dot (module_name (ri_metadata info)))) in
  let! query_job :=
    call_client_query client (dict_get query_dict (QUERY cdr_consts))
      job_config (module_short_name +:+ "_") in
  ret query_job.

(** The [try] block after [jobs.append(query_job)]. *)
Definition await_query (client : BigQueryClient) (info : rule_info)
    (query_count query_no : nat) (query_dict : dict) (query_job : QueryJob)
  : M unit :=
  let! _ := log INFO ("Running " +:+ job_id query_job) in
  (* wait for job to complete *)
  let! _ := call_result query_job in
  let! errors := read_errors query_job in
  if decide (errors = [])
  then
    let! msg := lift (SUCCESS_MESSAGE_TEMPLATE ce_consts (project client)
                        query_job query_no query_count (ri_metadata info)) in
    log INFO msg
  else
    let! msg := lift (FAILURE_MESSAGE_TEMPLATE ce_consts
                        (FailedJob (project client) query_job
                           (ri_metadata info) query_dict)) in
    lift (raise (Exn RuntimeError msg)).

(** The [except] block. *)
Definition log_and_reraise {A} (client : BigQueryClient) (info : rule_info)
    (query_dict : dict) (exp : exn) : M A :=
  let! msg := lift (FAILURE_MESSAGE_TEMPLATE ce_consts
                      (FailedCall (project client) (ri_metadata info)
                         query_dict exp)) in
  let! _ := log ERROR msg in
  lift (raise exp).

(** The [for] loop of [run_queries]. One [try] block holds the whole body;
    here it is cut at [jobs.append(query_job)], with the same handler on
    both parts. The loop gives its outcome, the local [jobs] as it is when
    the loop is left, and the state. *)
Fixpoint run_queries_loop (client : BigQueryClient) (info : rule_info)
    (query_count query_no : nat) (query_list : list dict)
    (jobs : list QueryJob) (st : state)
  : result (list QueryJob) * list QueryJob * state :=
  match query_list with
  | [] => (inr jobs, jobs, st)
  | query_dict :: rest =>
      match try_except
              (submit_query client info query_count query_no query_dict)
              is_cloud_or_timeout
              (log_and_reraise client info query_dict) st with
      | (inl e, st1) => (inl e, jobs, st1)
      | (inr query_job, st1) =>
          let jobs := jobs ++ [query_job] in
          match try_except
                  (await_query client info query_count query_no query_dict
                     query_job)
                  is_cloud_or_timeout
                  (log_and_reraise client info query_dict) st1 with
          | (inl e, st2) => (inl e, jobs, st2)
          | (inr _, st2) =>
              run_queries_loop client info query_count (S query_no) rest
                jobs st2
          end
      end
  end.

Definition run_queries (client : BigQueryClient) (query_list : list dict)
    (info : rule_info) : M (list QueryJob) :=
  fun st =>
    let query_count := length query_list in
    let '(res, _, st') :=
      run_queries_loop client info query_count 0 query_list [] st in
    (res, st').

(** *** Pipeline driver *)

(** [rule[0]] of a rule tuple *)
Definition rule_0 (rule : list clazz) : result clazz :=
  match rule with
  | c :: _ => inr c
  | [] => raise (Exn IndexError "tuple index out of range")
  end.

Fixpoint clean_dataset_loop (client : BigQueryClient) (project_id : string)
    (dataset_id sandbox_dataset_id table_namer : value) (kwargs : dict)
    (rule_count rule_index : nat) (rules : list (list clazz))
    (all_jobs : list QueryJob) : M (list QueryJob) :=
  match rules with
  | [] => ret all_jobs
  | rule :: rest =>
      let! clazz := lift (rule_0 rule) in
      let! (query_function, setup_function, rule_info) :=
        infer_rule clazz project_id dataset_id sandbox_dataset_id table_namer
          kwargs in
      let! _ := log INFO
                  ("Applying cleaning rule "
                   +:+ module_name (ri_metadata rule_info) +:+ " "
                   +:+ pretty (rule_index + 1) +:+ "/" +:+ pretty rule_count) in
      let! _ := setup_function client in
      let! query_list := query_function in
      let! jobs := run_queries client query_list rule_info in
      let! _ := log INFO
                  ("For clean rule " +:+ module_name (ri_metadata rule_info)
                   +:+ ", " +:+ pretty (length jobs) +:+ " jobs "
                   +:+ "were run successfully for "
                   +:+ pretty (length query_list) +:+ " queries") in
      clean_dataset_loop client project_id dataset_id sandbox_dataset_id
        table_namer kwargs rule_count (S rule_index) rest (all_jobs ++ jobs)
  end.

Definition clean_dataset_params : list string :=
  ["project_id"; "dataset_id"; "sandbox_dataset_id"; "rules"; "table_namer";
   "run_as"].

Definition clean_dataset (project_id : string)
    (dataset_id sandbox_dataset_id : value) (rules : list (list clazz))
    (table_namer run_as : value) (kwargs : dict) : M (list QueryJob) :=
  let! kwargs := lift (var_keywords "clean_dataset" clean_dataset_params kwargs) in
  (* Set up client *)
  let! impersonation_creds :=
    if truthy run_as
    then let! creds := lift (get_impersonation_credentials world run_as) in
         ret (Some creds)
    else ret None in
  let! _ := lift (Client_init world project_id impersonation_creds) in
  let client :=
    {| project := project_id; credentials := impersonation_creds |} in
  clean_dataset_loop client project_id dataset_id sandbox_dataset_id
    table_namer kwargs (length rules) 0 rules [].

Fixpoint get_query_list_loop (project_id : string)
    (dataset_id sandbox_dataset_id table_namer : value) (kwargs : dict)
    (rules : list (list clazz)) (all_queries_list : list dict)
  : M (list dict) :=
  match rules with
  | [] => ret all_queries_list
  | rule :: rest =>
      let! clazz := lift (rule_0 rule) in
      let! (query_function, _, rule_info) :=
        infer_rule clazz project_id dataset_id sandbox_dataset_id table_namer
          kwargs in
      let! query_list := query_function in
      get_query_list_loop project_id dataset_id sandbox_dataset_id
        table_namer kwargs rest (all_queries_list ++ query_list)
  end.

Definition get_query_list_params : list string :=
  ["project_id"; "dataset_id"; "sandbox_dataset_id"; "rules"; "table_namer"].

Definition get_query_list (project_id : string)
    (dataset_id sandbox_dataset_id : value) (rules : list (list clazz))
    (table_namer : value) (kwargs : dict) : M (list dict) :=
  let! kwargs := lift (var_keywords "get_query_list" get_query_list_params kwargs) in
  get_query_list_loop project_id dataset_id sandbox_dataset_id table_namer
    kwargs rules [].

(** *** What the code of a rule may be like *)

(** A rule whose constructor and query producer give, for the same
    arguments and the same instance, the same outcome whatever the
    warehouse and the rest of [W] are like. *)
Definition world_independent (c : clazz) : Prop :=
  match clazz_shape c with
  | StructuredRule cls =>
      (forall args kwargs w w',
         (cls_init cls args kwargs w).1 = (cls_init cls args kwargs w').1)
      /\ (forall attrs w w',
            (cls_get_query_specs cls attrs w).1.1
            = (cls_get_query_specs cls attrs w').1.1)
  | LegacyRule f =>
      forall args kwargs w w', (f args kwargs w).1 = (f args kwargs w').1
  end.

(** A rule whose [setup_rule] leaves unchanged what its [get_query_specs]
    returns. *)
Definition setup_keeps_query_specs (c : clazz) : Prop :=
  match clazz_shape c with
  | StructuredRule cls =>
      forall client attrs w w',
        (cls_get_query_specs cls (cls_setup_rule cls client attrs w).1.2 w').1.1
        = (cls_get_query_specs cls attrs w').1.1
  | LegacyRule _ => True
  end.

(** [query_list] is what the rule of the tuple [rule] produced in a turn of
    the loop of [clean_dataset]: for a structured rule, what
    [get_query_specs] returned for the instance that the constructor made
    from the identifiers and the resolved options and that [setup_rule]
    was called on; for an old style rule, what the function returned for
    the three identifiers and the resolved options. *)
Definition produced_by (client : BigQueryClient) (project_id : string)
    (dataset_id sandbox_dataset_id table_namer : value) (kwargs : dict)
    (rule : list clazz) (query_list : list dict) : Prop :=
  exists c filtered,
    rule_0 rule = inr c
    /\ get_custom_kwargs c kwargs = inr filtered
    /\ match clazz_shape c with
       | StructuredRule cls =>
           exists args w0 attrs0 w1 attrs1 w2,
             (args = [VStr project_id; dataset_id; sandbox_dataset_id;
                      table_namer]
              \/ args = [VStr project_id; dataset_id; sandbox_dataset_id])
             /\ cls_init cls args filtered w0 = (inr attrs0, w1)
             /\ cls_setup_rule cls client attrs0 w1 = (inr tt, attrs1, w2)
             /\ (cls_get_query_specs cls attrs1 w2).1.1 = inr query_list
       | LegacyRule f =>
           exists w,
             (f [VStr project_id; dataset_id; sandbox_dataset_id] filtered w).1
             = inr query_list
       end.

End Engine.

Arguments BigQueryClient : clear implicits.
Arguments CleaningRuleClass : clear implicits.
Arguments rule_shape : clear implicits.
Arguments clazz : clear implicits.
Arguments collaborators : clear implicits.
Arguments state : clear implicits.
Arguments rule_info : clear implicits.

(** ** The client of [gcloud/bq/__init__.py] *)

Section Client.
Context {W Credentials : Type}.

(** What the constructor of [BigQueryClient] calls besides the library's
    client: the set-up of tracing up to the span it opens for the project,
    [google.auth.default] and [utils.auth.delegated_credentials]. *)
Record client_collaborators := {
  start_tracing : string -> result unit;
  google_auth_default : result (Credentials * string);
  delegated_credentials : Credentials -> list string -> result Credentials;
}.

Variable world : collaborators W Credentials.
Variable auth : client_collaborators.

(** [if scopes:] for [None] or a list *)
Definition scopes_given (scopes : option (list string)) : bool :=
  match scopes with
  | None | Some [] => false
  | Some (_ :: _) => true
  end.

(** [BigQueryClient.__init__] *)
Definition BigQueryClient_init (project_id : string)
    (scopes : option (list string)) (credentials : option Credentials)
  : result (BigQueryClient Credentials) :=
  (try! _ := start_tracing auth project_id in
   try! both :=
     if scopes_given scopes
     then
       (try! found := google_auth_default auth in
        let credentials := found.1 in
        let project_id := found.2 in
        try! credentials :=
          delegated_credentials auth credentials (default [] scopes) in
        inr (Some credentials, project_id))
     else inr (credentials, project_id) in
   let credentials := both.1 in
   let project_id := both.2 in
   try! _ := Client_init world project_id credentials in
   inr {| project := project_id; credentials := credentials |})%result.

End Client.

Arguments client_collaborators : clear implicits.

(** ** Calling a Python function *)

(** The binding of the arguments of a call to the parameters of a
    signature whose parameters can all be given by position or by keyword:
    the names bound to values, or [TypeError]. *)
Fixpoint bind_keywords (params : list (string * inspect_Parameter))
    (kwargs : dict) (bound : dict) : result dict :=
  match params with
  | [] => inr bound
  | (name, p) :: params' =>
      match kwargs !! name, param_default p with
      | Some v, _ => bind_keywords params' kwargs (<[name := v]> bound)
      | None, Some d => bind_keywords params' kwargs (<[name := d]> bound)
      | None, None =>
          raise (Exn TypeError
                   ("missing a required argument: " +:+ repr_str name))
      end
  end.

Definition bind_arguments (params : list (string * inspect_Parameter))
    (args : list value) (kwargs : dict) : result dict :=
  if decide (length params < length args)
  then raise (Exn TypeError "too many positional arguments")
  else
    let positional := zip (take (length args) params).*1 args in
    if decide (Forall (fun k => kwargs !! k = None) positional.*1)
    then
      if decide (map_Forall (fun k _ => k ∈ params.*1) kwargs)
      then bind_keywords (drop (length args) params) kwargs
             (list_to_map positional)
      else raise (Exn TypeError "got an unexpected keyword argument")
    else raise (Exn TypeError "got multiple values for an argument").

(** [self.name] *)
Definition getattr (self : dict) (name : string) : result value :=
  match self !! name with
  | Some v => inr v
  | None =>
      raise (Exn AttributeError
               ("object has no attribute " +:+ repr_str name))
  end.

(** ** The rule [QRIDtoRID] of
    [cleaning_rules/deid/questionnaire_response_id_map.py] *)

Section QuestionnaireResponseIdMap.
Context {W Credentials : Type}.
Variable cdr_consts : clean_cdr_consts.
(** [BaseCleaningRule.__init__], from the instance as it is and the four
    identifiers it is given by keyword (the issue numbers, the description
    and the affected datasets and tables are constants of the call), to the
    instance as it leaves it. *)
Variable BaseCleaningRule_init : dict -> dict -> result dict.
(** [QRID_RID_MAPPING_QUERY.render], from its keyword arguments. *)
Variable QRID_RID_MAPPING_QUERY_render : dict -> result string.
(** [common.DEID_QUESTIONNAIRE_RESPONSE_MAP] *)
Variable DEID_QUESTIONNAIRE_RESPONSE_MAP : value.
(** The module the class is found in: its dotted name, or [__main__]. *)
Variable module : string.

Definition map_dataset_param : string :=
  "deid_questionnaire_response_map_dataset".

Definition QRIDtoRID_signature : list (string * inspect_Parameter) :=
  [("project_id", {| param_default := None |});
   ("dataset_id", {| param_default := None |});
   ("sandbox_dataset_id", {| param_default := None |});
   ("table_namer", {| param_default := Some VNone |});
   (map_dataset_param, {| param_default := Some VNone |})].

Definition map_dataset_error : exn :=
  Exn TypeError "`deid_questionnaire_response_map_dataset` cannot be empty".

(** [QRIDtoRID.__init__] *)
Definition QRIDtoRID_init (args : list value) (kwargs : dict) : result dict :=
  (try! bound := bind_arguments QRIDtoRID_signature args kwargs in
   let deid_questionnaire_response_map_dataset :=
     dict_get bound map_dataset_param in
   if negb (truthy deid_questionnaire_response_map_dataset)
   then raise map_dataset_error
   else
     let self : dict :=
       {[ map_dataset_param := deid_questionnaire_response_map_dataset ]} in
     BaseCleaningRule_init self
       (<[ "project_id" := dict_get bound "project_id" ]>
          (<[ "dataset_id" := dict_get bound "dataset_id" ]>
             (<[ "sandbox_dataset_id" := dict_get bound "sandbox_dataset_id" ]>
                {[ "table_namer" := dict_get bound "table_namer" ]}))))%result.

(** [QRIDtoRID.get_query_specs] *)
Definition QRIDtoRID_get_query_specs (self : dict) : result (list dict) :=
  (try! project_id := getattr self "project_id" in
   try! dataset_id := getattr self "dataset_id" in
   try! map_dataset := getattr self map_dataset_param in
   try! text :=
     QRID_RID_MAPPING_QUERY_render
       (<[ "project_id" := project_id ]>
          (<[ "dataset_id" := dataset_id ]>
             (<[ "deid_questionnaire_response_map" :=
                   DEID_QUESTIONNAIRE_RESPONSE_MAP ]>
                {[ "deid_questionnaire_response_map_dataset_id" :=
                     map_dataset ]}))) in
   let mapping_query : dict := {[ QUERY cdr_consts := VStr text ]} in
   inr [mapping_query])%result.

(** [QRIDtoRID.setup_rule]: [pass] *)
Definition QRIDtoRID_setup_rule (client : BigQueryClient Credentials)
    (self : dict) (w : W) : result unit * dict * W :=
  (inr tt, self, w).

Definition QRIDtoRID_class : CleaningRuleClass W Credentials :=
  {| cls_init := fun args kwargs w => (QRIDtoRID_init args kwargs, w);
     cls_get_query_specs := fun self w =>
       (QRIDtoRID_get_query_specs self, self, w);
     cls_setup_rule := QRIDtoRID_setup_rule;
     cls_get_query_specs_info :=
       {| obj_name := "get_query_specs"; obj_module := Some module;
          obj_sourcelines := inr 82 |} |}.

Definition QRIDtoRID : clazz W Credentials :=
  {| clazz_info :=
       {| obj_name := "QRIDtoRID"; obj_module := Some module;
          obj_sourcelines := inr 41 |};
     clazz_signature := QRIDtoRID_signature;
     clazz_shape := StructuredRule QRIDtoRID_class |}.

End QuestionnaireResponseIdMap.

(** ** A small concrete world

    Stand-ins for the parts that are not in the repository's engine file:
    the constants, a table-reference parser that wants three parts between
    dots, and a warehouse that keeps, for each job it was given, the job's
    identifier and its error list. A query fails when its text is
    [SELECT error]. *)
Module Demo.

Definition cdr_consts : clean_cdr_consts :=
  {| QUERY := "query";
     DESTINATION_TABLE := "destination_table_id";
     DESTINATION_DATASET := "destination_dataset_id";
     DISPOSITION := "write_disposition";
     LEGACY_SQL := "use_legacy_sql" |}.

Definition bq_consts : bq_utils_consts :=
  {| WRITE_EMPTY := VStr "WRITE_EMPTY" |}.

Definition ce_consts : clean_cdr_engine_consts :=
  {| CLEAN_ENGINE_REQUIRED_PARAMS :=
       list_to_set
         ["project_id"; "dataset_id"; "sandbox_dataset_id"; "table_namer"];
     QUERY_RUN_MESSAGE_TEMPLATE := fun query_no query_count info =>
       inr ("Running query " +:+ pretty query_no +:+ "/"
            +:+ pretty query_count +:+ " of " +:+ module_name info);
     SUCCESS_MESSAGE_TEMPLATE := fun project_id job query_no query_count info =>
       inr ("Query " +:+ pretty query_no +:+ " succeeded as " +:+ job_id job);
     FAILURE_MESSAGE_TEMPLATE := fun args =>
       match args with
       | FailedJob _ job info _ =>
           inr ("The failed query " +:+ job_id job +:+ " was generated by "
                +:+ module_name info)
       | FailedCall _ info _ exp =>
           inr ("The failed query was generated by " +:+ module_name info
                +:+ ": " +:+ exn_msg exp)
       end |}.

Definition from_string (s : string) : result TableReference :=
  match split_dot s with
  | [p; d; t] => inr {| tr_project := p; tr_dataset_id := d; tr_table_id := t |}
  | _ => raise (Exn ValueError "table_id must be a fully-qualified ID")
  end.

Definition jobs_table : Type := list (string * list string).

Definition world : collaborators jobs_table string :=
  {| get_impersonation_credentials := fun run_as => inr (format run_as);
     Client_init := fun _ _ => inr tt;
     TableReference_from_string := from_string;
     client_query := fun _ query _ prefix w =>
       let job := {| job_id := prefix +:+ pretty (length w) |} in
       let errors :=
         if decide (query = VStr "SELECT error") then ["invalidQuery"] else [] in
       (inr job, w ++ [(job_id job, errors)]);
     query_job_result := fun _ w => (inr tt, w);
     query_job_errors := fun job w =>
       match list_find (fun je => je.1 = job_id job) w with
       | Some (_, (_, errors)) => errors
       | None => []
       end |}.

(** A warehouse that refuses every query. *)
Definition offline_world : collaborators jobs_table string :=
  {| get_impersonation_credentials := fun run_as => inr (format run_as);
     Client_init := fun _ _ => inr tt;
     TableReference_from_string := from_string;
     client_query := fun _ _ _ _ w =>
       (inl (Exn GoogleCloudError "quota exceeded"), w);
     query_job_result := fun _ w => (inr tt, w);
     query_job_errors := fun _ _ => [] |}.

(** Application default credentials and their delegation. *)
Definition auth : client_collaborators string :=
  {| start_tracing := fun _ => inr tt;
     google_auth_default := inr ("adc", "default-project");
     delegated_credentials := fun found _ => inr ("delegated:" +:+ found) |}.

Definition query (text : string) : dict := {[ "query" := VStr text ]}.

Definition init : state jobs_table :=
  {| warehouse := []; heap := []; trace := [] |}.

Definition client : BigQueryClient string :=
  {| project := "proj"; credentials := None |}.

Definition three_queries : list dict :=
  [query "SELECT 1"; query "SELECT error"; query "SELECT 3"].

Definition info : rule_info jobs_table string :=
  {| ri_query_function := ret [];
     ri_setup_function := fun _ => ret tt;
     ri_metadata := {| function_name := "get_query_specs";
                       module_name := "cdr_cleaner.cleaning_rules.demo_rule";
                       line_no := 10 |} |}.

(** Query specifications for the job-configuration properties. *)
Definition legacy_only : dict := {[ "use_legacy_sql" := VBool true ]}.

Definition legacy_no_destination : dict :=
  <[ "query" := VStr "SELECT 1" ]>
    (<[ "use_legacy_sql" := VBool true ]>
       {[ "write_disposition" := VStr "WRITE_TRUNCATE" ]}).

Definition legacy_with_destination : dict :=
  <[ "query" := VStr "SELECT 1" ]>
    (<[ "destination_table_id" := VStr "t" ]>
       (<[ "destination_dataset_id" := VStr "d" ]>
          {[ "use_legacy_sql" := VBool true ]})).

Definition table_without_dataset : dict :=
  <[ "query" := VStr "SELECT 1" ]>
    (<[ "destination_table_id" := VStr "t" ]>
       {[ "destination_dataset_id" := VNone ]}).

Definition table_only : dict :=
  <[ "query" := VStr "SELECT 1" ]> {[ "destination_table_id" := VStr "t" ]}.

(** Rules. *)
Definition required : inspect_Parameter := {| param_default := None |}.
Definition optional (v : value) : inspect_Parameter :=
  {| param_default := Some v |}.

Definition engine_params : list (string * inspect_Parameter) :=
  [("project_id", required); ("dataset_id", required);
   ("sandbox_dataset_id", required)].

(** An old style clean function with one parameter of its own. *)
Definition cutoff_rule : clazz jobs_table string :=
  {| clazz_info :=
       {| obj_name := "get_cutoff_queries";
          obj_module := Some "cdr_cleaner.cleaning_rules.cutoff";
          obj_sourcelines := inr 12 |};
     clazz_signature := engine_params ++ [("cutoff_date", required)];
     clazz_shape :=
       LegacyRule (fun args kwargs w =>
         (inr [query ("DELETE FROM t WHERE d > "
                      +:+ format (dict_get kwargs "cutoff_date"))], w)) |}.

Definition cutoff_kwargs : dict :=
  <[ "cutoff_date" := VStr "2022-01-01" ]> {[ "extra" := VStr "ignored" ]}.

Definition extra_kwargs : dict := {[ "extra" := VStr "ignored" ]}.

(** A structured rule with two queries. *)
Definition two_query_class : CleaningRuleClass jobs_table string :=
  {| cls_init := fun args kwargs w => (inr ∅, w);
     cls_get_query_specs := fun attrs w =>
       (inr [query "CREATE TABLE sandbox.t AS SELECT 1";
             query "DELETE FROM t WHERE TRUE"], attrs, w);
     cls_setup_rule := fun _ attrs w => (inr tt, attrs, w);
     cls_get_query_specs_info :=
       {| obj_name := "get_query_specs";
          obj_module := Some "cdr_cleaner.cleaning_rules.two_query";
          obj_sourcelines := inr 60 |} |}.

Definition two_query_rule : clazz jobs_table string :=
  {| clazz_info :=
       {| obj_name := "TwoQueryRule";
          obj_module := Some "cdr_cleaner.cleaning_rules.two_query";
          obj_sourcelines := inr 30 |};
     clazz_signature := engine_params ++ [("table_namer", optional VNone)];
     clazz_shape := StructuredRule two_query_class |}.

Definition pipeline : list (list (clazz jobs_table string)) :=
  [[two_query_rule]; [cutoff_rule]].


(** A structured rule of the older kind: its constructor takes the three
    identifiers only, and refuses an empty dataset identifier. *)
Definition get_query_specs_info : inspected :=
  {| obj_name := "get_query_specs";
     obj_module := Some "cdr_cleaner.cleaning_rules.old_rule";
     obj_sourcelines := inr 82 |}.

Definition old_rule_class : CleaningRuleClass jobs_table string :=
  {| cls_init := fun args kwargs w =>
       (match args with
        | [_; dataset_id; _] =>
            if decide (dataset_id = VStr "")
            then raise (Exn ValueError "dataset_id cannot be empty")
            else inr {[ "dataset_id" := dataset_id ]}
        | _ =>
            raise (Exn TypeError
                     "__init__() takes 4 positional arguments but 5 were given")
        end, w);
     cls_get_query_specs := fun attrs w =>
       (inr [query ("DELETE FROM " +:+ format (dict_get attrs "dataset_id"))],
        attrs, w);
     cls_setup_rule := fun _ attrs w => (inr tt, attrs, w);
     cls_get_query_specs_info := get_query_specs_info |}.

Definition old_rule : clazz jobs_table string :=
  {| clazz_info :=
       {| obj_name := "OldRule";
          obj_module := Some "cdr_cleaner.cleaning_rules.old_rule";
          obj_sourcelines := inr 41 |};
     clazz_signature := engine_params;
     clazz_shape := StructuredRule old_rule_class |}.

(** An old style rule for which [inspect.getmodule] finds no module. *)
Definition unlocated_rule : clazz jobs_table string :=
  {| clazz_info :=
       {| obj_name := "get_queries"; obj_module := None;
          obj_sourcelines := inr 3 |};
     clazz_signature := engine_params;
     clazz_shape := LegacyRule (fun _ _ w => (inr [query "SELECT 1"], w)) |}.




(** The rule [QRIDtoRID] with a base class that keeps the identifiers in
    the instance, and a rendering that names the tables. *)
Definition base_init (self kwargs : dict) : result dict :=
  inr (self ∪ kwargs).

Definition render_mapping_query (args : dict) : result string :=
  inr ("UPDATE " +:+ format (dict_get args "project_id") +:+ "."
       +:+ format (dict_get args "dataset_id") +:+ ".observation FROM "
       +:+ format (dict_get args "deid_questionnaire_response_map_dataset_id")
       +:+ "." +:+ format (dict_get args "deid_questionnaire_response_map")).

Definition deid_map : value := VStr "_deid_questionnaire_response_map".

Definition qrid_module : string :=
  "cdr_cleaner.cleaning_rules.deid.questionnaire_response_id_map".

Definition qrid_rule : clazz jobs_table string :=
  QRIDtoRID cdr_consts base_init render_mapping_query deid_map qrid_module.

Definition qrid_kwargs : dict :=
  {[ "deid_questionnaire_response_map_dataset" := VStr "map_dataset" ]}.

Definition qrid_instance : dict :=
  <[ "project_id" := VStr "proj" ]>
    (<[ "dataset_id" := VStr "ds" ]>
       {[ "deid_questionnaire_response_map_dataset" := VStr "map_dataset" ]}).

End Demo.


(** * Properties *)

(** ** Job configuration *)

Section JobConfigProperties.
Variable cdr_consts : clean_cdr_consts.
Variable bq_consts : bq_utils_consts.
Variable from_string : string -> result TableReference.

Local Abbreviation generate :=
  (generate_job_config cdr_consts bq_consts from_string).

(** The configuration built in the branch with a destination. *)
Lemma generate_job_config_destination project_id query_dict table :
  query_dict !! DESTINATION_TABLE cdr_consts = Some table ->
  table <> VNone ->
  generate project_id query_dict =
    (try! dataset := dict_getitem query_dict (DESTINATION_DATASET cdr_consts) in
     try! reference :=
       from_string
         (project_id +:+ "." +:+ format dataset +:+ "." +:+ format table) in
     inr {| destination := Some reference;
            use_legacy_sql :=
              Some (dict_get_default query_dict (LEGACY_SQL cdr_consts)
                      (VBool false));
            allow_large_results :=
              Some (dict_get_default query_dict (LEGACY_SQL cdr_consts)
                      (VBool false));
            write_disposition :=
              Some (dict_get_default query_dict (DISPOSITION cdr_consts)
                      (WRITE_EMPTY bq_consts)) |})%result.
Proof.
  intros Htable Hset. unfold generate_job_config, dict_get.
  rewrite Htable. simpl.
  destruct (decide (table = VNone)) as [Heq | _]; [contradiction |].
  destruct (dict_getitem query_dict (DESTINATION_DATASET cdr_consts)) as [e | dataset];
    simpl; [reflexivity |].
  unfold dict_getitem. rewrite Htable. simpl.
  destruct (from_string _); reflexivity.
Qed.

(** C10: a query specification without a destination table gets the
    default job configuration, whatever else it holds: no destination, and
    neither legacy SQL, large results nor the write disposition assigned. *)
Theorem generate_job_config_without_destination project_id query_dict :
  dict_get query_dict (DESTINATION_TABLE cdr_consts) = VNone ->
  generate project_id query_dict = inr QueryJobConfig_new
  /\ destination QueryJobConfig_new = None
  /\ use_legacy_sql QueryJobConfig_new = None
  /\ allow_large_results QueryJobConfig_new = None
  /\ write_disposition QueryJobConfig_new = None.
Proof.
  intros Hnone. unfold generate_job_config.
  destruct (decide _) as [_ | Hne]; [| contradiction].
  repeat split.
Qed.

(** C4, amended: when the query specification has a destination table and
    the configuration is built, [allow_large_results] is the value of the
    specification's legacy-SQL entry ([False] when there is none), the same
    as [use_legacy_sql]; so legacy SQL [True] gives large results [True]. *)
Theorem allow_large_results_with_destination project_id query_dict job_config :
  dict_get query_dict (DESTINATION_TABLE cdr_consts) <> VNone ->
  generate project_id query_dict = inr job_config ->
  get_allow_large_results job_config =
    dict_get_default query_dict (LEGACY_SQL cdr_consts) (VBool false)
  /\ get_allow_large_results job_config = get_use_legacy_sql job_config
  /\ (query_dict !! LEGACY_SQL cdr_consts = Some (VBool true) ->
      get_allow_large_results job_config = VBool true).
Proof.
  intros Hset Hgen.
  destruct (query_dict !! DESTINATION_TABLE cdr_consts) as [table |] eqn:Htable;
    [| unfold dict_get in Hset; rewrite Htable in Hset; contradiction].
  assert (table <> VNone) as Htable_set.
  { intros ->. apply Hset. unfold dict_get. rewrite Htable. reflexivity. }
  rewrite (generate_job_config_destination _ _ _ Htable Htable_set) in Hgen.
  destruct (dict_getitem _ _) as [e | dataset]; simpl in Hgen; [discriminate |].
  destruct (from_string _) as [e | reference]; simpl in Hgen; [discriminate |].
  injection Hgen as <-. unfold get_allow_large_results, get_use_legacy_sql.
  simpl. repeat split.
  intros Hlegacy. unfold dict_get_default. rewrite Hlegacy. reflexivity.
Qed.

(** C5, amended: with a destination table set, a query specification
    without the destination dataset key makes the construction raise
    [KeyError]; with the key present nothing is validated: the dataset
    value is formatted into [project.dataset.table], [None] as the text
    [None], and the destination is what the library parses from it. *)
Theorem destination_dataset_is_not_validated project_id query_dict table :
  query_dict !! DESTINATION_TABLE cdr_consts = Some table ->
  table <> VNone ->
  match query_dict !! DESTINATION_DATASET cdr_consts with
  | None =>
      generate project_id query_dict =
        inl (Exn KeyError (repr_str (DESTINATION_DATASET cdr_consts)))
  | Some dataset =>
      match from_string
              (project_id +:+ "." +:+ format dataset +:+ "." +:+ format table)
      with
      | inl e => generate project_id query_dict = inl e
      | inr reference =>
          exists job_config,
            generate project_id query_dict = inr job_config
            /\ destination job_config = Some reference
      end
  end.
Proof.
  intros Htable Hset.
  rewrite (generate_job_config_destination _ _ _ Htable Hset).
  unfold dict_getitem.
  destruct (query_dict !! DESTINATION_DATASET cdr_consts) as [dataset |];
    simpl; [| reflexivity].
  destruct (from_string _) as [e | reference]; simpl; [reflexivity |].
  eexists. split; reflexivity.
Qed.

End JobConfigProperties.

Lemma generate_job_config_without_destination_witness :
  generate_job_config Demo.cdr_consts Demo.bq_consts Demo.from_string "proj"
    Demo.legacy_no_destination = inr QueryJobConfig_new
  /\ destination QueryJobConfig_new = None
  /\ use_legacy_sql QueryJobConfig_new = None
  /\ allow_large_results QueryJobConfig_new = None
  /\ write_disposition QueryJobConfig_new = None.
Proof.
  apply (generate_job_config_without_destination Demo.cdr_consts
           Demo.bq_consts Demo.from_string "proj" Demo.legacy_no_destination).
  vm_compute. reflexivity.
Defined.

(** C4 as stated fails: the specification [{use_legacy_sql: True}] has no
    destination table, and its configuration has large results unset. *)
Lemma allow_large_results_counterexample :
  dict_get Demo.legacy_only (LEGACY_SQL Demo.cdr_consts) = VBool true
  /\ exists job_config,
       generate_job_config Demo.cdr_consts Demo.bq_consts Demo.from_string
         "proj" Demo.legacy_only = inr job_config
       /\ get_allow_large_results job_config = VNone
       /\ get_allow_large_results job_config <> VBool true.
Proof.
  split; [vm_compute; reflexivity |].
  exists QueryJobConfig_new. split; [vm_compute; reflexivity |].
  split; [reflexivity | discriminate].
Qed.

Lemma allow_large_results_with_destination_witness :
  exists job_config,
    generate_job_config Demo.cdr_consts Demo.bq_consts Demo.from_string
      "proj" Demo.legacy_with_destination = inr job_config
    /\ get_allow_large_results job_config = VBool true.
Proof.
  destruct (generate_job_config Demo.cdr_consts Demo.bq_consts
              Demo.from_string "proj" Demo.legacy_with_destination)
    as [e | job_config] eqn:Hgen; [vm_compute in Hgen; discriminate |].
  exists job_config. split; [reflexivity |].
  refine (proj2 (proj2
    (allow_large_results_with_destination Demo.cdr_consts Demo.bq_consts
       Demo.from_string "proj" Demo.legacy_with_destination job_config
       _ Hgen)) _).
  - vm_compute. discriminate.
  - vm_compute. reflexivity.
Defined.

(** C5 as stated fails: with the destination dataset [None], no error is
    raised and the destination is built for the dataset named [None]. *)
Lemma destination_dataset_counterexample :
  Demo.table_without_dataset !! DESTINATION_TABLE Demo.cdr_consts
    = Some (VStr "t")
  /\ dict_get Demo.table_without_dataset (DESTINATION_DATASET Demo.cdr_consts)
     = VNone
  /\ exists job_config,
       generate_job_config Demo.cdr_consts Demo.bq_consts Demo.from_string
         "proj" Demo.table_without_dataset = inr job_config
       /\ destination job_config =
            Some {| tr_project := "proj"; tr_dataset_id := "None";
                    tr_table_id := "t" |}.
Proof.
  split; [vm_compute; reflexivity |].
  split; [vm_compute; reflexivity |].
  eexists. split; vm_compute; reflexivity.
Qed.

Lemma destination_dataset_is_not_validated_witness :
  generate_job_config Demo.cdr_consts Demo.bq_consts Demo.from_string
    "proj" Demo.table_only = inl (Exn KeyError "'destination_dataset_id'").
Proof.
  apply (destination_dataset_is_not_validated Demo.cdr_consts Demo.bq_consts
           Demo.from_string "proj" Demo.table_only (VStr "t")).
  - vm_compute. reflexivity.
  - discriminate.
Defined.

(** ** Keyword arguments *)

Lemma colliding_nil params options :
  colliding params options = [] <-> free_of params options.
Proof.
  unfold colliding, free_of. induction params as [| k rest IH].
  - split; [constructor | reflexivity].
  - rewrite filter_cons, Forall_cons.
    destruct (decide (k ∈ dom options)) as [Hin | Hout].
    + split; [discriminate |]. intros [Hk _].
      apply not_elem_of_dom in Hk. contradiction.
    + apply not_elem_of_dom in Hout. rewrite IH. tauto.
Qed.

Lemma var_keywords_free function params options :
  free_of params options -> var_keywords function params options = inr options.
Proof.
  intros Hfree. apply colliding_nil in Hfree. unfold var_keywords.
  rewrite Hfree. reflexivity.
Qed.

Lemma var_keywords_returns function params options kwargs :
  var_keywords function params options = inr kwargs ->
  kwargs = options /\ free_of params options.
Proof.
  unfold var_keywords.
  destruct (colliding params options) as [| k rest] eqn:Hcolliding;
    [| discriminate].
  intros Hres. injection Hres as <-. split; [reflexivity |].
  apply colliding_nil, Hcolliding.
Qed.

Lemma var_keywords_raises function params options :
  ~ free_of params options ->
  exists e,
    var_keywords function params options = inl e /\ exn_type e = TypeError.
Proof.
  intros Hcollide. unfold var_keywords.
  destruct (colliding params options) as [| k rest] eqn:Hcolliding.
  - apply colliding_nil in Hcolliding. contradiction.
  - eexists. split; reflexivity.
Qed.

(** ** Parameter resolver *)

Section ResolverProperties.
Context {W Credentials : Type}.
Variable ce_consts : clean_cdr_engine_consts.

Implicit Types (c : clazz W Credentials) (kwargs : dict).

Local Abbreviation declared := (declared ce_consts).
Local Abbreviation required_and_absent := (required_and_absent ce_consts).

Lemma rule_params_names c k :
  k ∈ (rule_params ce_consts c).*1 <-> declared c k.
Proof.
  unfold rule_params, declared. rewrite !list_elem_of_fmap. split.
  - intros [[k' p] [-> Hin]]. apply list_elem_of_filter in Hin as [Hres Hin].
    split; [| exact Hres]. exists (k', p). split; [reflexivity | exact Hin].
  - intros [[[k' p] [-> Hin]] Hres]. exists (k', p).
    split; [reflexivity |]. apply list_elem_of_filter. split; assumption.
Qed.

Lemma filtered_kwargs_lookup c kwargs k :
  filtered_kwargs ce_consts c kwargs !! k =
    if decide (declared c k) then kwargs !! k else None.
Proof.
  unfold filtered_kwargs. rewrite map_lookup_filter.
  destruct (kwargs !! k) as [v |] eqn:Hk; simpl.
  - destruct (decide (declared c k)) as [Hd | Hd].
    + rewrite option_guard_True; [reflexivity |].
      simpl. apply rule_params_names, Hd.
    + rewrite option_guard_False; [reflexivity |].
      simpl. rewrite rule_params_names. exact Hd.
  - destruct (decide (declared c k)); reflexivity.
Qed.

Lemma missing_spec c kwargs k :
  k ∈ missing ce_consts c (filtered_kwargs ce_consts c kwargs)
  <-> required_and_absent c kwargs k.
Proof.
  unfold missing, required_and_absent. rewrite list_elem_of_fmap. split.
  - intros [[k' p] [-> Hin]]. simpl.
    apply list_elem_of_filter in Hin as [[Habs Hdef] Hin]. simpl in *.
    unfold rule_params in Hin. apply list_elem_of_filter in Hin as [Hres Hin].
    simpl in Hres. exists p. repeat split; try assumption.
    apply not_elem_of_dom in Habs. rewrite filtered_kwargs_lookup in Habs.
    destruct (decide (declared c k')) as [_ | Hnd]; [exact Habs |].
    exfalso. apply Hnd. split; [| exact Hres].
    apply list_elem_of_fmap. exists (k', p). split; [reflexivity | exact Hin].
  - intros [p (Hin & Hres & Hdef & Habs)]. exists (k, p).
    split; [reflexivity |]. apply list_elem_of_filter. split.
    + simpl. split; [| exact Hdef]. apply not_elem_of_dom.
      rewrite filtered_kwargs_lookup, Habs.
      destruct (decide (declared c k)); reflexivity.
    + unfold rule_params. apply list_elem_of_filter. split; assumption.
Qed.

(** Options under undeclared names do not reach the filtered options. *)
Lemma filtered_kwargs_extra c kwargs extra :
  (forall k, is_Some (extra !! k) -> ~ declared c k) ->
  filtered_kwargs ce_consts c (extra ∪ kwargs)
  = filtered_kwargs ce_consts c kwargs.
Proof.
  intros Hextra. apply map_eq. intros k. rewrite !filtered_kwargs_lookup.
  destruct (decide (declared c k)) as [Hd | _]; [| reflexivity].
  apply lookup_union_r.
  destruct (extra !! k) as [v |] eqn:Hk; [| reflexivity].
  exfalso. apply (Hextra k); [rewrite Hk; eexists; reflexivity | exact Hd].
Qed.

(** The resolver, with the binding of its options written out. *)
Lemma get_custom_kwargs_unfold c kwargs :
  get_custom_kwargs ce_consts c kwargs
  = if decide (kwargs !! "clazz" = None)
    then
      if decide (missing ce_consts c (filtered_kwargs ce_consts c kwargs) = [])
      then inr (filtered_kwargs ce_consts c kwargs)
      else raise (Exn ValueError
                    (missing_message
                       (missing ce_consts c (filtered_kwargs ce_consts c kwargs))
                       (obj_name (clazz_info c))))
    else inl (multiple_values "get_custom_kwargs" "clazz").
Proof.
  unfold get_custom_kwargs, var_keywords, colliding, get_custom_kwargs_params.
  rewrite filter_cons, filter_nil.
  destruct (decide ("clazz" ∈ dom kwargs)) as [Hin | Hout].
  - rewrite decide_False; [reflexivity |].
    apply elem_of_dom in Hin as [v Hv]. rewrite Hv. discriminate.
  - rewrite decide_True by (apply not_elem_of_dom; exact Hout). reflexivity.
Qed.

Lemma get_custom_kwargs_returns c kwargs filtered :
  get_custom_kwargs ce_consts c kwargs = inr filtered ->
  kwargs !! "clazz" = None
  /\ missing ce_consts c (filtered_kwargs ce_consts c kwargs) = []
  /\ filtered = filtered_kwargs ce_consts c kwargs.
Proof.
  rewrite get_custom_kwargs_unfold.
  destruct (decide (kwargs !! "clazz" = None)) as [Hfree | _];
    [| discriminate].
  destruct (decide _) as [Hnil | _]; [| discriminate].
  intros Hres. injection Hres as <-. repeat split; assumption.
Qed.

(** C7, amended: the resolver's result holds exactly the supplied entries
    whose name is a declared parameter that is not one of the engine's;
    options under any other name are dropped, and supplying them changes
    neither the result nor raises, but for one name: an option called
    [clazz], like the resolver's own parameter, makes the call a
    [TypeError], so the resolver returns only for options without it. *)
Theorem get_custom_kwargs_keeps_declared c kwargs filtered :
  get_custom_kwargs ce_consts c kwargs = inr filtered ->
  kwargs !! "clazz" = None
  /\ (forall k, filtered !! k = if decide (declared c k) then kwargs !! k else None)
  /\ (forall extra,
        (forall k, is_Some (extra !! k) -> ~ declared c k) ->
        get_custom_kwargs ce_consts c (extra ∪ kwargs)
        = if decide (extra !! "clazz" = None)
          then inr filtered
          else inl (multiple_values "get_custom_kwargs" "clazz")).
Proof.
  intros Hres. rewrite get_custom_kwargs_unfold in Hres.
  destruct (decide (kwargs !! "clazz" = None)) as [Hfree | _];
    [| discriminate].
  split; [exact Hfree |]. split.
  - destruct (decide _) in Hres; [| discriminate].
    injection Hres as <-. intros k. apply filtered_kwargs_lookup.
  - intros extra Hextra. rewrite get_custom_kwargs_unfold.
    destruct (decide (extra !! "clazz" = None)) as [Hnone | Hsome].
    + rewrite decide_True
        by (rewrite lookup_union_r by exact Hnone; exact Hfree).
      rewrite (filtered_kwargs_extra _ _ _ Hextra). exact Hres.
    + rewrite decide_False; [reflexivity |].
      destruct (extra !! "clazz") as [v |] eqn:Hv; [| contradiction].
      rewrite (lookup_union_Some_l _ _ _ _ Hv). discriminate.
Qed.

(** C3, amended: when a required parameter of the rule, not one of the
    engine's, is absent from the supplied options, and no option is called
    [clazz], the resolver raises [ValueError] with a message that lists the
    missing names, which are exactly the required and absent ones; with an
    option called [clazz] the call is a [TypeError] instead. The adapter,
    given options named like none of its own parameters, raises the
    [ValueError] before it calls the rule, leaving the state as it was;
    given an option that is, it raises [TypeError], likewise before. *)
Theorem get_custom_kwargs_missing c kwargs :
  (exists k, required_and_absent c kwargs k) ->
  let names := missing ce_consts c (filtered_kwargs ce_consts c kwargs) in
  let error :=
    Exn ValueError (missing_message names (obj_name (clazz_info c))) in
  get_custom_kwargs ce_consts c kwargs
  = (if decide (kwargs !! "clazz" = None)
     then inl error
     else inl (multiple_values "get_custom_kwargs" "clazz"))
  /\ (forall k, k ∈ names <-> required_and_absent c kwargs k)
  /\ (forall project_id dataset_id sandbox_dataset_id table_namer
        (st : state W),
        free_of infer_rule_params kwargs ->
        infer_rule ce_consts c project_id dataset_id sandbox_dataset_id
          table_namer kwargs st = (inl error, st))
  /\ (forall project_id dataset_id sandbox_dataset_id table_namer
        (st : state W),
        ~ free_of infer_rule_params kwargs ->
        exists e,
          exn_type e = TypeError
          /\ infer_rule ce_consts c project_id dataset_id sandbox_dataset_id
               table_namer kwargs st = (inl e, st)).
Proof.
  intros [k Hk] names error.
  assert (get_custom_kwargs ce_consts c kwargs
          = (if decide (kwargs !! "clazz" = None)
             then inl error
             else inl (multiple_values "get_custom_kwargs" "clazz")))
    as Hraise.
  { rewrite get_custom_kwargs_unfold. fold names.
    destruct (decide (kwargs !! "clazz" = None)); [| reflexivity].
    destruct (decide (names = [])) as [Hnil | _]; [| reflexivity].
    apply missing_spec in Hk. fold names in Hk. rewrite Hnil in Hk.
    apply elem_of_nil in Hk. contradiction. }
  split; [exact Hraise |]. split; [intros k'; apply missing_spec |]. split.
  - intros project_id dataset_id sandbox_dataset_id table_namer st Hfree.
    unfold infer_rule, bind, lift.
    rewrite (var_keywords_free _ _ _ Hfree), Hraise.
    rewrite decide_True; [reflexivity |].
    apply Forall_cons in Hfree as [Hclazz _]. exact Hclazz.
  - intros project_id dataset_id sandbox_dataset_id table_namer st Hcollide.
    destruct (var_keywords_raises "infer_rule" _ _ Hcollide) as (e & He & Htype).
    exists e. split; [exact Htype |].
    unfold infer_rule, bind, lift. rewrite He. reflexivity.
Qed.

End ResolverProperties.

(** C7 as stated fails: the rule declares no parameter [clazz], yet an
    option of this name is not dropped; the call of the resolver, which
    returns without the option, raises with it. *)
Lemma get_custom_kwargs_clazz_counterexample :
  ~ declared Demo.ce_consts Demo.cutoff_rule "clazz"
  /\ get_custom_kwargs Demo.ce_consts Demo.cutoff_rule Demo.cutoff_kwargs
     = inr {[ "cutoff_date" := VStr "2022-01-01" ]}
  /\ get_custom_kwargs Demo.ce_consts Demo.cutoff_rule
       (<[ "clazz" := VStr "ignored" ]> Demo.cutoff_kwargs)
     = inl (Exn TypeError
              "get_custom_kwargs() got multiple values for argument 'clazz'").
Proof.
  split; [| split; vm_compute; reflexivity].
  apply (bool_decide_unpack _). vm_compute. exact I.
Qed.

Lemma get_custom_kwargs_keeps_declared_witness :
  get_custom_kwargs Demo.ce_consts Demo.cutoff_rule Demo.cutoff_kwargs
  = inr {[ "cutoff_date" := VStr "2022-01-01" ]}
  /\ Demo.cutoff_kwargs !! "extra" = Some (VStr "ignored")
  /\ ({[ "cutoff_date" := VStr "2022-01-01" ]} : dict) !! "extra" = None.
Proof.
  assert (get_custom_kwargs Demo.ce_consts Demo.cutoff_rule Demo.cutoff_kwargs
          = inr {[ "cutoff_date" := VStr "2022-01-01" ]}) as Hres
    by (vm_compute; reflexivity).
  split; [exact Hres |]. split; [vm_compute; reflexivity |].
  rewrite (proj1 (proj2 (get_custom_kwargs_keeps_declared Demo.ce_consts
                           Demo.cutoff_rule Demo.cutoff_kwargs _ Hres))
             "extra").
  vm_compute. reflexivity.
Defined.

(** C3 as stated fails: [cutoff_date] is required and absent, but with an
    option called [clazz] the resolver raises [TypeError], which names no
    missing parameter. *)
Lemma get_custom_kwargs_missing_counterexample :
  required_and_absent Demo.ce_consts Demo.cutoff_rule
    {[ "clazz" := VStr "ignored" ]} "cutoff_date"
  /\ get_custom_kwargs Demo.ce_consts Demo.cutoff_rule
       {[ "clazz" := VStr "ignored" ]}
     = inl (Exn TypeError
              "get_custom_kwargs() got multiple values for argument 'clazz'").
Proof.
  split; [| vm_compute; reflexivity].
  exists Demo.required.
  split; [apply (bool_decide_unpack _); vm_compute; exact I |].
  split; [apply (bool_decide_unpack _); vm_compute; exact I |].
  split; vm_compute; reflexivity.
Qed.

Lemma get_custom_kwargs_missing_witness :
  get_custom_kwargs Demo.ce_consts Demo.cutoff_rule Demo.extra_kwargs
  = inl (Exn ValueError
           ("Params ['cutoff_date'] not provided for cleaning rule "
            +:+ "get_cutoff_queries")).
Proof.
  etransitivity.
  - apply (get_custom_kwargs_missing Demo.ce_consts Demo.cutoff_rule
             Demo.extra_kwargs).
    exists "cutoff_date", Demo.required.
    split; [apply (bool_decide_unpack _); vm_compute; exact I |].
    split; [apply (bool_decide_unpack _); vm_compute; exact I |].
    split; vm_compute; reflexivity.
  - vm_compute. reflexivity.
Defined.

(** ** Rule adapter *)

Section AdapterProperties.
Context {W Credentials : Type}.
Variable ce_consts : clean_cdr_engine_consts.

Implicit Types (c : clazz W Credentials) (st : state W).

(** C8: when the constructor of a structured rule raises [TypeError] on
    the call with the table namer, the adapter logs the warning and calls
    it again without the table namer, and the first exception is not
    raised. With the instance the second call gives, and the module and
    line of [get_query_specs] found, the adaptation returns, with the
    functions bound to the new instance; what the second call or the
    look-up of module and line raises is raised by the adapter. The rule's
    options are well formed: named like none of the adapter's parameters,
    and resolved. *)
Theorem infer_rule_retries_without_table_namer c cls project_id dataset_id
    sandbox_dataset_id table_namer kwargs filtered e w1 st :
  clazz_shape c = StructuredRule cls ->
  free_of infer_rule_params kwargs ->
  get_custom_kwargs ce_consts c kwargs = inr filtered ->
  cls_init cls [VStr project_id; dataset_id; sandbox_dataset_id; table_namer]
    filtered (warehouse st) = (inl e, w1) ->
  exn_type e = TypeError ->
  exists res st' retried,
    infer_rule ce_consts c project_id dataset_id sandbox_dataset_id
      table_namer kwargs st = (res, st')
    /\ trace st' =
         trace st
         ++ [EvInstantiate (obj_name (clazz_info c))
               [VStr project_id; dataset_id; sandbox_dataset_id; table_namer]
               filtered (inl e);
             EvLog WARNING (table_namer_warning c);
             EvInstantiate (obj_name (clazz_info c))
               [VStr project_id; dataset_id; sandbox_dataset_id]
               filtered retried]
    /\ match cls_init cls [VStr project_id; dataset_id; sandbox_dataset_id]
               filtered w1 with
       | (inl e', w2) =>
           res = inl e' /\ retried = inl e' /\ heap st' = heap st
           /\ warehouse st' = w2
       | (inr attrs, w2) =>
           retried = inr (length (heap st))
           /\ heap st' = heap st ++ [attrs]
           /\ warehouse st' = w2
           /\ match getmodule_name (cls_get_query_specs_info cls),
                    obj_sourcelines (cls_get_query_specs_info cls) with
              | inr module, inr line =>
                  exists info,
                    res = inr (bound_get_query_specs cls (length (heap st)),
                               bound_setup_rule cls (length (heap st)),
                               info)
                    /\ ri_metadata info =
                         {| function_name :=
                              obj_name (cls_get_query_specs_info cls);
                            module_name := module;
                            line_no := line |}
              | inl e', _ => res = inl e'
              | inr _, inl e' => res = inl e'
              end
       end.
Proof.
  intros Hshape Hfree Hkwargs Hinit Htype.
  unfold infer_rule, new_instance, bind, lift, try_except, instantiate, log,
    emit, is_TypeError.
  rewrite (var_keywords_free _ _ _ Hfree), Hkwargs, Hshape. simpl.
  rewrite Hinit. simpl. rewrite Htype. simpl.
  destruct (cls_init cls [VStr project_id; dataset_id; sandbox_dataset_id]
              filtered w1) as [[e' | attrs] w2]; simpl.
  - do 3 eexists. split; [reflexivity |]. simpl.
    split; [rewrite <- !app_assoc; reflexivity |]. repeat split.
  - destruct (getmodule_name (cls_get_query_specs_info cls)) as [e1 | module];
      simpl.
    + do 3 eexists. split; [reflexivity |]. simpl.
      split; [rewrite <- !app_assoc; reflexivity |]. repeat split.
    + destruct (obj_sourcelines (cls_get_query_specs_info cls))
        as [e2 | line]; simpl.
      * do 3 eexists. split; [reflexivity |]. simpl.
        split; [rewrite <- !app_assoc; reflexivity |]. repeat split.
      * do 3 eexists. split; [reflexivity |]. simpl.
        split; [rewrite <- !app_assoc; reflexivity |].
        split; [reflexivity |]. split; [reflexivity |].
        split; [reflexivity |].
        eexists. split; reflexivity.
Qed.

(** C9, amended: when the module of the described object is not found, or
    its source lines cannot be read, the adapter raises; there is no
    placeholder. What it raises is what came first: the [TypeError] of an
    option named like one of its parameters, the exception of the
    resolver, for a structured rule the exception of the constructor, and
    else the exception [m] of the look-up: the [AttributeError] of reading
    [__name__] from [None] when no module is found, the exception of
    [inspect.getsourcelines] when the module is found. An old style rule
    is not called; a structured rule has been instantiated by then. *)
Theorem infer_rule_raises_without_metadata c project_id dataset_id
    sandbox_dataset_id table_namer kwargs st :
  obj_module (described c) = None
  \/ (exists e, obj_sourcelines (described c) = inl e) ->
  exists e st' m,
    infer_rule ce_consts c project_id dataset_id sandbox_dataset_id
      table_namer kwargs st = (inl e, st')
    /\ (obj_module (described c) = None ->
        m = Exn AttributeError "'NoneType' object has no attribute '__name__'")
    /\ (forall name e1,
          obj_module (described c) = Some name ->
          obj_sourcelines (described c) = inl e1 -> m = e1)
    /\ (forall e0,
          var_keywords "infer_rule" infer_rule_params kwargs = inl e0 ->
          e = e0 /\ st' = st)
    /\ (free_of infer_rule_params kwargs ->
        match get_custom_kwargs ce_consts c kwargs with
        | inl e0 => e = e0 /\ st' = st
        | inr filtered =>
            match clazz_shape c with
            | LegacyRule _ => e = m /\ st' = st
            | StructuredRule cls =>
                match new_instance c cls project_id dataset_id
                        sandbox_dataset_id table_namer filtered st with
                | (inl e1, st1) => e = e1 /\ st' = st1
                | (inr _, st1) => e = m /\ st' = st1
                end
            end
        end).
Proof.
  intros Hmissing.
  assert (exists m,
            (try! module_name := getmodule_name (described c) in
             try! line_no := obj_sourcelines (described c) in
             inr (module_name, line_no))%result = inl m
            /\ (obj_module (described c) = None ->
                m = Exn AttributeError
                      "'NoneType' object has no attribute '__name__'")
            /\ (forall name e1,
                  obj_module (described c) = Some name ->
                  obj_sourcelines (described c) = inl e1 -> m = e1))
    as (m & Hm & Hnone & Hsome).
  { unfold getmodule_name.
    destruct (obj_module (described c)) as [name |] eqn:Hmodule.
    - destruct Hmissing as [Hnone | [e1 He1]]; [discriminate |].
      exists e1. simpl. rewrite He1.
      split; [reflexivity |]. split; [discriminate |].
      intros name' e1' Hname He1'. congruence.
    - eexists. split; [reflexivity |]. split; [reflexivity |].
      intros name e1 Hname. discriminate. }
  unfold infer_rule, bind, lift.
  destruct (var_keywords "infer_rule" infer_rule_params kwargs)
    as [e0 | bound] eqn:Hbound.
  { exists e0, st, m. split; [reflexivity |].
    split; [exact Hnone |]. split; [exact Hsome |].
    split; [intros e0' He0'; simplify_eq; split; reflexivity |].
    intros Hfree. rewrite (var_keywords_free _ _ _ Hfree) in Hbound.
    discriminate. }
  apply var_keywords_returns in Hbound as [-> Hfree].
  destruct (get_custom_kwargs ce_consts c kwargs) as [e0 | filtered].
  { exists e0, st, m. split; [reflexivity |].
    split; [exact Hnone |]. split; [exact Hsome |].
    split; [discriminate |]. intros _. split; reflexivity. }
  unfold described in Hm. destruct (clazz_shape c) as [cls | f].
  - destruct (new_instance c cls project_id dataset_id sandbox_dataset_id
                table_namer filtered st) as [[e1 | instance] st1].
    + exists e1, st1, m. split; [reflexivity |].
      split; [exact Hnone |]. split; [exact Hsome |].
      split; [discriminate |]. intros _. split; reflexivity.
    + exists m, st1, m.
      destruct (getmodule_name (cls_get_query_specs_info cls))
        as [e1 | module_name]; simpl in Hm |- *.
      * simplify_eq. split; [reflexivity |].
        split; [exact Hnone |]. split; [exact Hsome |].
        split; [discriminate |]. intros _. split; reflexivity.
      * destruct (obj_sourcelines (cls_get_query_specs_info cls))
          as [e2 | line_no]; simpl in Hm |- *; [| discriminate].
        simplify_eq. split; [reflexivity |].
        split; [exact Hnone |]. split; [exact Hsome |].
        split; [discriminate |]. intros _. split; reflexivity.
  - exists m, st, m.
    destruct (getmodule_name (clazz_info c)) as [e1 | module_name];
      simpl in Hm |- *.
    + simplify_eq. split; [reflexivity |].
      split; [exact Hnone |]. split; [exact Hsome |].
      split; [discriminate |]. intros _. split; reflexivity.
    + destruct (obj_sourcelines (clazz_info c)) as [e2 | line_no];
        simpl in Hm |- *; [| discriminate].
      simplify_eq. split; [reflexivity |].
      split; [exact Hnone |]. split; [exact Hsome |].
      split; [discriminate |]. intros _. split; reflexivity.
Qed.

End AdapterProperties.

Lemma infer_rule_retries_without_table_namer_witness :
  exists res st',
    infer_rule Demo.ce_consts Demo.old_rule "proj" (VStr "ds")
      (VStr "sandbox") (VStr "") ∅ Demo.init = (res, st')
    /\ warnings (trace st')
       = ["OldRule does not accept the `table_namer` property yet."]
    /\ instantiations (trace st')
       = [[VStr "proj"; VStr "ds"; VStr "sandbox"; VStr ""];
          [VStr "proj"; VStr "ds"; VStr "sandbox"]]
    /\ exists adapted, res = inr adapted.
Proof.
  destruct (infer_rule_retries_without_table_namer Demo.ce_consts
              Demo.old_rule Demo.old_rule_class "proj" (VStr "ds")
              (VStr "sandbox") (VStr "") ∅ ∅
              (Exn TypeError
                 "__init__() takes 4 positional arguments but 5 were given")
              [] Demo.init)
    as (res & st' & retried & Hrun & Htrace & Hres).
  - reflexivity.
  - apply (bool_decide_unpack _). vm_compute. exact I.
  - vm_compute. reflexivity.
  - reflexivity.
  - reflexivity.
  - exists res, st'. split; [exact Hrun |].
    rewrite Htrace. split; [vm_compute; reflexivity |].
    split; [reflexivity |].
    cbn in Hres. destruct Hres as (_ & _ & _ & info & -> & _).
    eexists. reflexivity.
Defined.

(** C9 as stated fails: for a rule whose module is not found the adapter
    raises [AttributeError]. *)
Lemma infer_rule_metadata_counterexample :
  obj_module (described Demo.unlocated_rule) = None
  /\ infer_rule Demo.ce_consts Demo.unlocated_rule "proj" (VStr "ds")
       (VStr "sandbox") (VStr "") ∅ Demo.init
     = (inl (Exn AttributeError
               "'NoneType' object has no attribute '__name__'"),
        Demo.init).
Proof. split; vm_compute; reflexivity. Qed.

Lemma infer_rule_raises_without_metadata_witness :
  exists st',
    infer_rule Demo.ce_consts Demo.unlocated_rule "proj" (VStr "ds")
      (VStr "sandbox") (VStr "") ∅ Demo.init
    = (inl (Exn AttributeError
              "'NoneType' object has no attribute '__name__'"), st').
Proof.
  destruct (infer_rule_raises_without_metadata Demo.ce_consts
              Demo.unlocated_rule "proj" (VStr "ds") (VStr "sandbox")
              (VStr "") ∅ Demo.init)
    as (e & st' & m & Hrun & Hnone & _ & _ & Hresolved).
  - left. reflexivity.
  - exists st'. rewrite Hrun.
    assert (free_of infer_rule_params (∅ : dict)) as Hfree
      by (apply (bool_decide_unpack _); vm_compute; exact I).
    specialize (Hresolved Hfree). cbn in Hresolved.
    destruct Hresolved as [-> _]. rewrite (Hnone eq_refl). reflexivity.
Defined.

(** ** Query job runner *)

(** Closes a goal [trace st' = trace st ++ ?evs] after the computation was
    unfolded. *)
Ltac trace_extension :=
  simpl; rewrite <- ?app_assoc; simpl;
  first [reflexivity | exact (eq_sym (app_nil_r _))].

(** Splits an unfolded monadic computation on every call it makes,
    innermost first. *)
Ltac run_cases H :=
  repeat match type of H with
         | context [match ?x with _ => _ end] =>
             lazymatch x with
             | context [match _ with _ => _ end] => fail
             | _ => let E := fresh "E" in destruct x eqn:E; simpl in H
             end
         end.

Lemma submissions_app evs1 evs2 :
  submissions (evs1 ++ evs2) = submissions evs1 ++ submissions evs2.
Proof. apply omap_app. Qed.

Lemma query_calls_app evs1 evs2 :
  query_calls (evs1 ++ evs2) = query_calls evs1 ++ query_calls evs2.
Proof. apply omap_app. Qed.

Lemma error_reads_app evs1 evs2 :
  error_reads (evs1 ++ evs2) = error_reads evs1 ++ error_reads evs2.
Proof. apply omap_app. Qed.

Lemma produced_app evs1 evs2 :
  produced (evs1 ++ evs2) = produced evs1 ++ produced evs2.
Proof. apply omap_app. Qed.

Section RunnerProperties.
Context {W Credentials : Type}.
Variable cdr_consts : clean_cdr_consts.
Variable bq_consts : bq_utils_consts.
Variable ce_consts : clean_cdr_engine_consts.
Variable world : collaborators W Credentials.

Implicit Types (st : state W) (client : BigQueryClient Credentials)
  (info : rule_info W Credentials) (query_dict : dict)
  (query_list : list dict) (evs : list event).

Local Abbreviation text := (fun query_dict => dict_get query_dict (QUERY cdr_consts)).

Local Abbreviation guarded_submit client info query_count query_no query_dict :=
  (try_except
     (submit_query cdr_consts bq_consts ce_consts world client info
        query_count query_no query_dict)
     is_cloud_or_timeout
     (log_and_reraise ce_consts client info query_dict)).

Local Abbreviation guarded_await client info query_count query_no query_dict
    query_job :=
  (try_except
     (await_query ce_consts world client info query_count query_no query_dict
        query_job)
     is_cloud_or_timeout
     (log_and_reraise ce_consts client info query_dict)).

Lemma guarded_submit_events client info query_count query_no query_dict st r st1 :
  guarded_submit client info query_count query_no query_dict st = (r, st1) ->
  exists evs,
    trace st1 = trace st ++ evs /\ heap st1 = heap st
    /\ error_reads evs = [] /\ produced evs = []
    /\ match r with
       | inr query_job =>
           submissions evs = [(text query_dict, query_job)]
           /\ query_calls evs = [text query_dict]
       | inl _ =>
           submissions evs = []
           /\ (query_calls evs = [] \/ query_calls evs = [text query_dict])
       end.
Proof.
  intros H.
  unfold try_except, submit_query, log_and_reraise, call_client_query, bind,
    lift, ret, log, emit, raise in H.
  run_cases H; simplify_eq; simpl.
  all: eexists; (split; [trace_extension |]); simpl; auto 10.
Qed.

Lemma guarded_await_events client info query_count query_no query_dict
    query_job st r st2 :
  guarded_await client info query_count query_no query_dict query_job st
    = (r, st2) ->
  exists evs,
    trace st2 = trace st ++ evs /\ heap st2 = heap st
    /\ submissions evs = [] /\ query_calls evs = [] /\ produced evs = []
    /\ match r with
       | inr _ => error_reads evs = [(query_job, [])]
       | inl _ =>
           error_reads evs = []
           \/ exists errors, error_reads evs = [(query_job, errors)]
       end.
Proof.
  intros H.
  unfold try_except, await_query, log_and_reraise, call_result, read_errors,
    bind, lift, ret, log, emit, raise in H.
  run_cases H; simplify_eq; simpl.
  all: eexists; (split; [trace_extension |]); simpl; eauto 10.
  repeat split. congruence.
Qed.

Local Abbreviation loop :=
  (run_queries_loop cdr_consts bq_consts ce_consts world).

(** What the loop leaves in the trace, by the way it is left. *)
Lemma run_queries_loop_events client info query_count query_list :
  forall query_no jobs0 st res jobs st',
    loop client info query_count query_no query_list jobs0 st
      = (res, jobs, st') ->
    exists evs,
      trace st' = trace st ++ evs /\ heap st' = heap st
      /\ produced evs = []
      /\ jobs = jobs0 ++ (submissions evs).*2
      /\ (forall returned, res = inr returned ->
            returned = jobs
            /\ (submissions evs).*1 = text <$> query_list
            /\ query_calls evs = text <$> query_list)
      /\ (forall i job errors,
            error_reads evs !! i = Some (job, errors) -> errors <> [] ->
            (exists e, res = inl e)
            /\ query_calls evs = take (S i) (text <$> query_list)
            /\ length (query_calls evs) = S i
            /\ length (submissions evs) = S i
            /\ (submissions evs).*2 !! i = Some job).
Proof.
  induction query_list as [| query_dict rest IH];
    intros query_no jobs0 st res jobs st' Hloop; simpl in Hloop.
  - simplify_eq. exists []. rewrite !app_nil_r.
    split; [reflexivity |]. split; [reflexivity |]. split; [reflexivity |].
    split; [reflexivity |]. split.
    + intros returned Hret. simplify_eq. repeat split.
    + intros i job errors Hi. destruct i; discriminate.
  - destruct (guarded_submit client info query_count query_no query_dict st)
      as [[e | query_job] st1] eqn:Hsubmit.
    + apply guarded_submit_events in Hsubmit
        as (evs1 & Htrace1 & Hheap1 & Herr1 & Hprod1 & Hsub1 & Hcalls1).
      simplify_eq. exists evs1. rewrite Hsub1, Herr1, app_nil_r.
      split; [assumption |]. split; [assumption |]. split; [assumption |].
      split; [reflexivity |]. split.
      * intros returned Hret. discriminate.
      * intros i job errors Hi. destruct i; discriminate.
    + apply guarded_submit_events in Hsubmit
        as (evs1 & Htrace1 & Hheap1 & Herr1 & Hprod1 & Hsub1 & Hcalls1).
      destruct (guarded_await client info query_count query_no query_dict
                  query_job st1) as [[e | u] st2] eqn:Hawait.
      * apply guarded_await_events in Hawait
          as (evs2 & Htrace2 & Hheap2 & Hsub2 & Hcalls2 & Hprod2 & Herr2).
        simplify_eq. exists (evs1 ++ evs2).
        rewrite submissions_app, query_calls_app, error_reads_app,
          produced_app, Hsub1, Hsub2, Hcalls1, Hcalls2, Herr1, Hprod1, Hprod2.
        simpl. rewrite Htrace2, Htrace1, Hheap2, Hheap1, app_assoc.
        split; [reflexivity |]. split; [reflexivity |].
        split; [reflexivity |]. split; [reflexivity |]. split.
        -- intros returned Hret. discriminate.
        -- intros i job errors Hi Hne.
           destruct Herr2 as [Herr2 | [errors' Herr2]];
             rewrite Herr2 in Hi; [destruct i; discriminate |].
           destruct i as [| i]; [| destruct i; discriminate].
           simpl in Hi. simplify_eq. repeat split. eexists; reflexivity.
      * apply guarded_await_events in Hawait
          as (evs2 & Htrace2 & Hheap2 & Hsub2 & Hcalls2 & Hprod2 & Herr2).
        apply IH in Hloop
          as (evs3 & Htrace3 & Hheap3 & Hprod3 & Hjobs & Hret & Hfail).
        exists (evs1 ++ evs2 ++ evs3).
        rewrite !submissions_app, !query_calls_app, !error_reads_app,
          !produced_app, Hsub1, Hsub2, Hcalls1, Hcalls2, Herr1, Herr2,
          Hprod1, Hprod2, Hprod3.
        simpl. rewrite Htrace3, Htrace2, Htrace1, Hheap3, Hheap2, Hheap1.
        rewrite Hjobs, <- !app_assoc. simpl.
        split; [reflexivity |]. split; [reflexivity |].
        split; [reflexivity |]. split; [reflexivity |]. split.
        -- intros returned Hreturned.
           apply Hret in Hreturned as (Hr1 & Hr2 & Hr3).
           split; [rewrite Hr1, Hjobs, <- app_assoc; reflexivity |].
           split; f_equal; assumption.
        -- intros i job errors Hi Hne.
           destruct i as [| i]; simpl in Hi; [simplify_eq; contradiction |].
           destruct (Hfail i job errors Hi Hne)
             as (Hraised & Htake & Hlen1 & Hlen2 & Hjob).
           split; [exact Hraised |].
           split; [f_equal; exact Htake |].
           split; [simpl; f_equal; exact Hlen1 |].
           split; [simpl; f_equal; exact Hlen2 |].
           exact Hjob.
Qed.

(** When the runner returns, it returns the jobs [client.query] gave for
    the queries of the list, in the order of the list. *)
Lemma run_queries_returns client query_list info st jobs st' :
  run_queries cdr_consts bq_consts ce_consts world client query_list info st
    = (inr jobs, st') ->
  exists evs,
    trace st' = trace st ++ evs /\ heap st' = heap st
    /\ produced evs = []
    /\ (submissions evs).*1 = text <$> query_list
    /\ (submissions evs).*2 = jobs.
Proof.
  unfold run_queries. intros Hrun.
  destruct (loop client info (length query_list) 0 query_list [] st)
    as [[res jobs'] st1] eqn:Hloop.
  simplify_eq.
  apply run_queries_loop_events in Hloop
    as (evs & Htrace & Hheap & Hprod & Hjobs & Hret & _).
  destruct (Hret jobs eq_refl) as (-> & Htexts & _).
  exists evs. repeat split; try assumption. rewrite Hjobs. reflexivity.
Qed.


End RunnerProperties.



(** ** Pipeline driver *)

Section DriverProperties.
Context {W Credentials : Type}.
Variable cdr_consts : clean_cdr_consts.
Variable bq_consts : bq_utils_consts.
Variable ce_consts : clean_cdr_engine_consts.
Variable world : collaborators W Credentials.

Implicit Types (st : state W) (client : BigQueryClient Credentials)
  (c : clazz W Credentials) (info : rule_info W Credentials)
  (rules : list (list (clazz W Credentials))) (evs : list event).

Local Abbreviation text :=
  (fun query_dict => dict_get query_dict (QUERY cdr_consts)).

Lemma bind_returns {A B} (m : M A) (k : A -> M B) st (b : B) st' :
  bind m k st = (inr b, st') ->
  exists a st1, m st = (inr a, st1) /\ k a st1 = (inr b, st').
Proof.
  unfold bind. destruct (m st) as [[e | a] st1]; [discriminate |].
  intros Hk. exists a, st1. split; [reflexivity | exact Hk].
Qed.

(** What an adaptation that returns leaves in the trace, and what the two
    functions it returns leave there when they return. *)
Lemma infer_rule_returns c project_id dataset_id sandbox_dataset_id
    table_namer kwargs st query_function setup_function info st' :
  infer_rule ce_consts c project_id dataset_id sandbox_dataset_id table_namer
    kwargs st = (inr (query_function, setup_function, info), st') ->
  exists evs,
    trace st' = trace st ++ evs
    /\ produced evs = [] /\ submissions evs = []
    /\ (forall st1 query_list st2,
          query_function st1 = (inr query_list, st2) ->
          exists evs',
            trace st2 = trace st1 ++ evs'
            /\ produced evs' = [query_list] /\ submissions evs' = [])
    /\ (forall client st1 u st2,
          setup_function client st1 = (inr u, st2) ->
          exists evs',
            trace st2 = trace st1 ++ evs'
            /\ produced evs' = [] /\ submissions evs' = []).
Proof.
  intros H.
  unfold infer_rule, new_instance, try_except, instantiate, bind, lift, ret,
    log, emit in H.
  run_cases H; simplify_eq; simpl.
  all: eexists; (split; [trace_extension |]); simpl.
  all: split; [reflexivity |]; split; [reflexivity |]; split.
  all: intros; simpl in *.
  all: match goal with
       | H : bound_get_query_specs _ _ _ = _ |- _ =>
           unfold bound_get_query_specs in H
       | H : bound_setup_rule _ _ _ _ = _ |- _ =>
           unfold bound_setup_rule in H
       | H : legacy_query_function _ _ _ _ _ = _ |- _ =>
           unfold legacy_query_function in H
       | _ => idtac
       end.
  all: match goal with
       | H : _ = (inr _, _) |- _ => run_cases H; simplify_eq; simpl
       end.
  all: eexists; (split; [trace_extension |]); simpl; auto.
  all: try match goal with
           | H : _ = inr ?query_list |- context [[?query_list]] => rewrite H
           end; auto.
Qed.

Lemma lift_returns {A} (r : result A) st (a : A) st' :
  lift r st = (inr a, st') -> r = inr a /\ st' = st.
Proof. unfold lift. intros H. simplify_eq. split; reflexivity. Qed.

Lemma log_returns lvl msg st (u : unit) st' :
  log lvl msg st = (inr u, st') ->
  trace st' = trace st ++ [EvLog lvl msg] /\ heap st' = heap st.
Proof. unfold log, emit. intros H. simplify_eq. split; reflexivity. Qed.

Lemma log_warehouse lvl msg st (u : unit) st' :
  log lvl msg st = (inr u, st') -> warehouse st' = warehouse st.
Proof. unfold log, emit. intros H. simplify_eq. reflexivity. Qed.

(** The instance of a structured rule, when the adapter gets one: the
    constructor made it on the call with the table namer, or raised
    [TypeError] there and made it on the call without. *)
Lemma new_instance_returns c cls project_id dataset_id sandbox_dataset_id
    table_namer filtered st instance st1 :
  new_instance c cls project_id dataset_id sandbox_dataset_id table_namer
    filtered st = (inr instance, st1) ->
  instance = length (heap st)
  /\ exists attrs,
       heap st1 = heap st ++ [attrs]
       /\ (cls_init cls
             [VStr project_id; dataset_id; sandbox_dataset_id; table_namer]
             filtered (warehouse st) = (inr attrs, warehouse st1)
           \/ exists e w1,
                cls_init cls
                  [VStr project_id; dataset_id; sandbox_dataset_id;
                   table_namer] filtered (warehouse st) = (inl e, w1)
                /\ exn_type e = TypeError
                /\ cls_init cls
                     [VStr project_id; dataset_id; sandbox_dataset_id]
                     filtered w1 = (inr attrs, warehouse st1)).
Proof.
  unfold new_instance, try_except, instantiate, bind, log, emit, is_TypeError.
  destruct (cls_init cls
              [VStr project_id; dataset_id; sandbox_dataset_id; table_namer]
              filtered (warehouse st)) as [[e | attrs] w1] eqn:Hfirst; simpl.
  - destruct (bool_decide (exn_type e = TypeError)) eqn:Htype;
      [| discriminate].
    apply bool_decide_eq_true_1 in Htype. simpl.
    destruct (cls_init cls [VStr project_id; dataset_id; sandbox_dataset_id]
                filtered w1) as [[e' | attrs] w2] eqn:Hsecond; simpl;
      [discriminate |].
    intros H. simplify_eq. simpl. split; [reflexivity |].
    exists attrs. split; [reflexivity |]. right. exists e, w1.
    repeat split; assumption.
  - intros H. simplify_eq. simpl. split; [reflexivity |].
    exists attrs. split; [reflexivity |]. left. reflexivity.
Qed.

(** What an adaptation that returns was given and has made. *)
Lemma infer_rule_built c project_id dataset_id sandbox_dataset_id table_namer
    kwargs st query_function setup_function info st1 :
  infer_rule ce_consts c project_id dataset_id sandbox_dataset_id table_namer
    kwargs st = (inr (query_function, setup_function, info), st1) ->
  exists filtered,
    free_of infer_rule_params kwargs
    /\ get_custom_kwargs ce_consts c kwargs = inr filtered
    /\ match clazz_shape c with
       | StructuredRule cls =>
           new_instance c cls project_id dataset_id sandbox_dataset_id
             table_namer filtered st = (inr (length (heap st)), st1)
           /\ query_function = bound_get_query_specs cls (length (heap st))
           /\ setup_function = bound_setup_rule cls (length (heap st))
       | LegacyRule f =>
           query_function
           = legacy_query_function c f
               [VStr project_id; dataset_id; sandbox_dataset_id] filtered
           /\ setup_function = (fun _ => ret tt)
           /\ st1 = st
       end
    /\ exists module line,
         getmodule_name (described c) = inr module
         /\ obj_sourcelines (described c) = inr line.
Proof.
  intros H. unfold infer_rule in H.
  apply bind_returns in H as (bound & st0 & Hbound & H).
  apply lift_returns in Hbound as [Hbound ->].
  apply var_keywords_returns in Hbound as [-> Hfree].
  apply bind_returns in H as (filtered & st0 & Hres & H).
  apply lift_returns in Hres as [Hres ->].
  exists filtered. split; [exact Hfree |]. split; [exact Hres |].
  unfold described. destruct (clazz_shape c) as [cls | f].
  - apply bind_returns in H as (instance & st2 & Hnew & H).
    apply bind_returns in H as (module & st3 & Hmodule & H).
    apply lift_returns in Hmodule as [Hmodule ->].
    apply bind_returns in H as (line & st3 & Hline & H).
    apply lift_returns in Hline as [Hline ->].
    unfold ret in H. simplify_eq.
    destruct (new_instance_returns _ _ _ _ _ _ _ _ _ _ Hnew) as [-> _].
    repeat split; try assumption. exists module, line. split; assumption.
  - apply bind_returns in H as (module & st3 & Hmodule & H).
    apply lift_returns in Hmodule as [Hmodule ->].
    apply bind_returns in H as (line & st3 & Hline & H).
    apply lift_returns in Hline as [Hline ->].
    unfold ret in H. simplify_eq.
    repeat split. exists module, line. split; assumption.
Qed.

Local Abbreviation driver_loop :=
  (clean_dataset_loop cdr_consts bq_consts ce_consts world).

(** One turn of the driver's loop that is followed by a return. *)
Lemma clean_dataset_loop_step client project_id dataset_id sandbox_dataset_id
    table_namer kwargs rule_count rule_index rule rest all_jobs0 st all_jobs
    st' :
  driver_loop client project_id dataset_id sandbox_dataset_id table_namer
    kwargs rule_count rule_index (rule :: rest) all_jobs0 st
    = (inr all_jobs, st') ->
  exists c query_function setup_function info st1 msg1 st2 st3 query_list st4
         jobs st5 msg2 st6,
    rule_0 rule = inr c
    /\ infer_rule ce_consts c project_id dataset_id sandbox_dataset_id
         table_namer kwargs st
       = (inr (query_function, setup_function, info), st1)
    /\ log INFO msg1 st1 = (inr tt, st2)
    /\ setup_function client st2 = (inr tt, st3)
    /\ query_function st3 = (inr query_list, st4)
    /\ run_queries cdr_consts bq_consts ce_consts world client query_list
         info st4 = (inr jobs, st5)
    /\ log INFO msg2 st5 = (inr tt, st6)
    /\ driver_loop client project_id dataset_id sandbox_dataset_id table_namer
         kwargs rule_count (S rule_index) rest (all_jobs0 ++ jobs) st6
       = (inr all_jobs, st').
Proof.
  intros H. simpl in H.
  apply bind_returns in H as (c & st0 & Hrule & H).
  apply lift_returns in Hrule as [Hrule ->].
  apply bind_returns in H as ([[query_function setup_function] info] & st1
                              & Hinfer & H).
  apply bind_returns in H as ([] & st2 & Hlog1 & H).
  apply bind_returns in H as ([] & st3 & Hsetup & H).
  apply bind_returns in H as (query_list & st4 & Hquery & H).
  apply bind_returns in H as (jobs & st5 & Hrun & H).
  apply bind_returns in H as ([] & st6 & Hlog2 & H).
  do 14 eexists.
  repeat match goal with |- _ /\ _ => split; [eassumption |] end.
  eassumption.
Qed.

Local Abbreviation produced_by :=
  (produced_by (W:=W) (Credentials:=Credentials) ce_consts).

(** The query list of a turn of the driver's loop is the one the rule of
    this turn produced, for the instance made and set up in this turn. *)
Lemma clean_dataset_turn_produces client project_id dataset_id
    sandbox_dataset_id table_namer kwargs rule c query_function
    setup_function info st st1 msg1 st2 st3 query_list st4 :
  rule_0 rule = inr c ->
  infer_rule ce_consts c project_id dataset_id sandbox_dataset_id table_namer
    kwargs st = (inr (query_function, setup_function, info), st1) ->
  log INFO msg1 st1 = (inr tt, st2) ->
  setup_function client st2 = (inr tt, st3) ->
  query_function st3 = (inr query_list, st4) ->
  produced_by client project_id dataset_id sandbox_dataset_id table_namer
    kwargs rule query_list.
Proof.
  intros Hrule Hinfer Hlog Hsetup Hquery.
  apply infer_rule_built in Hinfer as (filtered & _ & Hres & Hshape & _).
  exists c, filtered. split; [exact Hrule |]. split; [exact Hres |].
  pose proof (log_warehouse _ _ _ _ _ Hlog) as Hw2.
  apply log_returns in Hlog as [_ Hheap2].
  destruct (clazz_shape c) as [cls | f].
  - destruct Hshape as (Hnew & -> & ->).
    apply new_instance_returns in Hnew as (_ & attrs & Hheap1 & Hmade).
    assert (heap st2 !! length (heap st) = Some attrs) as Hlookup.
    { rewrite Hheap2, Hheap1. apply list_lookup_middle. reflexivity. }
    unfold bound_setup_rule in Hsetup. rewrite Hlookup in Hsetup.
    destruct (cls_setup_rule cls client attrs (warehouse st2))
      as [[res attrs1] w2] eqn:Hrun.
    simplify_eq.
    unfold bound_get_query_specs in Hquery. simpl in Hquery.
    rewrite list_lookup_insert_eq in Hquery
      by (rewrite Hheap2, Hheap1, length_app; simpl; lia).
    destruct (cls_get_query_specs cls attrs1 w2) as [[res attrs2] w3]
      eqn:Hspecs.
    simplify_eq. rewrite Hw2 in Hrun.
    destruct Hmade as [Hfirst | (e & w1 & Hfirst & _ & Hsecond)].
    + exists [VStr project_id; dataset_id; sandbox_dataset_id; table_namer],
        (warehouse st), attrs, (warehouse st1), attrs1, w2.
      split; [left; reflexivity |]. split; [exact Hfirst |].
      split; [exact Hrun |]. rewrite Hspecs. reflexivity.
    + exists [VStr project_id; dataset_id; sandbox_dataset_id],
        w1, attrs, (warehouse st1), attrs1, w2.
      split; [right; reflexivity |]. split; [exact Hsecond |].
      split; [exact Hrun |]. rewrite Hspecs. reflexivity.
  - destruct Hshape as (-> & -> & ->).
    unfold legacy_query_function in Hquery. simplify_eq.
    exists (warehouse st3). assumption.
Qed.

(** The jobs the driver's loop returns, by the trace. *)
Lemma clean_dataset_loop_events client project_id dataset_id
    sandbox_dataset_id table_namer kwargs rule_count rules :
  forall rule_index all_jobs0 st all_jobs st',
    driver_loop client project_id dataset_id sandbox_dataset_id table_namer
      kwargs rule_count rule_index rules all_jobs0 st = (inr all_jobs, st') ->
    exists evs jobs_of_rule,
      trace st' = trace st ++ evs
      /\ all_jobs = all_jobs0 ++ concat jobs_of_rule
      /\ Forall2 (fun jobs query_list => length jobs = length query_list)
           jobs_of_rule (produced evs)
      /\ length (produced evs) = length rules
      /\ (submissions evs).*1 = text <$> concat (produced evs)
      /\ (submissions evs).*2 = concat jobs_of_rule
      /\ Forall2
           (produced_by client project_id dataset_id sandbox_dataset_id
              table_namer kwargs)
           rules (produced evs).
Proof.
  induction rules as [| rule rest IH];
    intros rule_index all_jobs0 st all_jobs st' Hloop.
  - simpl in Hloop. unfold ret in Hloop. simplify_eq.
    exists [], []. rewrite !app_nil_r. repeat split; constructor.
  - apply clean_dataset_loop_step in Hloop
      as (c & query_function & setup_function & info & st1 & msg1 & st2 & st3
          & query_list & st4 & jobs & st5 & msg2 & st6 & Hrule & Hinfer
          & Hlog1 & Hsetup & Hquery & Hrun & Hlog2 & Hloop).
    pose proof (clean_dataset_turn_produces _ _ _ _ _ _ _ _ _ _ _ _ _ _ _ _
                  _ _ Hrule Hinfer Hlog1 Hsetup Hquery) as Hproduced.
    apply infer_rule_returns in Hinfer
      as (evs1 & Htrace1 & Hprod1 & Hsub1 & Hqf & Hsf).
    apply log_returns in Hlog1 as [Htrace2 _].
    apply Hsf in Hsetup as (evs3 & Htrace3 & Hprod3 & Hsub3).
    apply Hqf in Hquery as (evs4 & Htrace4 & Hprod4 & Hsub4).
    apply run_queries_returns in Hrun
      as (evs5 & Htrace5 & _ & Hprod5 & Htexts5 & Hjobs5).
    apply log_returns in Hlog2 as [Htrace6 _].
    apply IH in Hloop
      as (evs7 & jobs_rest & Htrace7 & Hall & Hblocks & Hlen & Htexts7
          & Hjobs7 & Hby).
    exists (evs1 ++ [EvLog INFO msg1] ++ evs3 ++ evs4 ++ evs5
            ++ [EvLog INFO msg2] ++ evs7), (jobs :: jobs_rest).
    rewrite !produced_app, !submissions_app, Hprod1, Hprod3, Hprod4, Hprod5,
      Hsub1, Hsub3, Hsub4.
    simpl. rewrite !fmap_app, Htexts5, Htexts7, Hjobs5, Hjobs7.
    split.
    { rewrite Htrace7, Htrace6, Htrace5, Htrace4, Htrace3, Htrace2, Htrace1.
      rewrite <- !app_assoc. reflexivity. }
    split; [rewrite Hall, <- app_assoc; reflexivity |].
    split.
    { constructor; [| exact Hblocks].
      rewrite <- Hjobs5, <- (length_fmap text query_list), <- Htexts5.
      rewrite !length_fmap. reflexivity. }
    split; [simpl; f_equal; exact Hlen |].
    split; [reflexivity |]. split; [reflexivity |].
    constructor; assumption.
Qed.

(** The part of [clean_dataset] before its loop, when it returns. *)
Lemma clean_dataset_returns project_id dataset_id sandbox_dataset_id rules
    table_namer run_as kwargs st all_jobs st' :
  clean_dataset cdr_consts bq_consts ce_consts world project_id dataset_id
    sandbox_dataset_id rules table_namer run_as kwargs st
    = (inr all_jobs, st') ->
  free_of clean_dataset_params kwargs
  /\ exists client,
       project client = project_id
       /\ driver_loop client project_id dataset_id sandbox_dataset_id
            table_namer kwargs (length rules) 0 rules [] st
          = (inr all_jobs, st').
Proof.
  unfold clean_dataset. intros H.
  apply bind_returns in H as (bound & st1 & Hbound & H).
  apply lift_returns in Hbound as [Hbound ->].
  apply var_keywords_returns in Hbound as [-> Hfree].
  split; [exact Hfree |].
  apply bind_returns in H as (creds & st1 & Hcreds & H).
  assert (st1 = st) as ->.
  { destruct (truthy run_as).
    - apply bind_returns in Hcreds as (cr & st2 & Hlift & Hret).
      apply lift_returns in Hlift as [_ ->]. unfold ret in Hret. congruence.
    - unfold ret in Hcreds. congruence. }
  apply bind_returns in H as ([] & st1 & Hinit & H).
  apply lift_returns in Hinit as [_ ->].
  eexists. split; [| exact H]. reflexivity.
Qed.

(** C2: the job sequence the driver returns is the concatenation, in the
    order of the rules, of one block of jobs per rule, each as long as the
    query list its rule produced: the query lists are, rule by rule and in
    the order of the rule list, those the rules produced, each for the
    instance made and set up in its own turn; and the jobs are, in this
    order, those [client.query] gave for the queries of these lists, taken
    rule after rule and within a rule in the order of its list. *)
Theorem clean_dataset_job_order project_id dataset_id sandbox_dataset_id rules
    table_namer run_as kwargs st all_jobs st' :
  clean_dataset cdr_consts bq_consts ce_consts world project_id dataset_id
    sandbox_dataset_id rules table_namer run_as kwargs st
    = (inr all_jobs, st') ->
  exists evs jobs_of_rule,
    trace st' = trace st ++ evs
    /\ all_jobs = concat jobs_of_rule
    /\ Forall2 (fun jobs query_list => length jobs = length query_list)
         jobs_of_rule (produced evs)
    /\ length (produced evs) = length rules
    /\ submissions evs = zip (text <$> concat (produced evs)) all_jobs
    /\ exists client,
         project client = project_id
         /\ Forall2
              (produced_by client project_id dataset_id sandbox_dataset_id
                 table_namer kwargs)
              rules (produced evs).
Proof.
  intros H.
  apply clean_dataset_returns in H as (_ & client & Hproject & H).
  apply clean_dataset_loop_events in H
    as (evs & jobs_of_rule & Htrace & Hall & Hblocks & Hlen & Htexts & Hjobs
        & Hby).
  exists evs, jobs_of_rule. simpl in Hall. subst all_jobs.
  split; [exact Htrace |]. split; [reflexivity |]. split; [exact Hblocks |].
  split; [exact Hlen |].
  split; [rewrite <- Htexts, <- Hjobs; symmetry; apply zip_fst_snd |].
  exists client. split; assumption.
Qed.

End DriverProperties.

Lemma clean_dataset_job_order_witness :
  exists st',
    clean_dataset Demo.cdr_consts Demo.bq_consts Demo.ce_consts Demo.world
      "proj" (VStr "ds") (VStr "sandbox") Demo.pipeline (VStr "") VNone
      Demo.cutoff_kwargs Demo.init
    = (inr [{| job_id := "two_query_0" |}; {| job_id := "two_query_1" |};
            {| job_id := "cutoff_2" |}], st')
    /\ submissions (trace st')
       = [(VStr "CREATE TABLE sandbox.t AS SELECT 1",
           {| job_id := "two_query_0" |});
          (VStr "DELETE FROM t WHERE TRUE", {| job_id := "two_query_1" |});
          (VStr "DELETE FROM t WHERE d > 2022-01-01",
           {| job_id := "cutoff_2" |})].
Proof.
  destruct (clean_dataset Demo.cdr_consts Demo.bq_consts Demo.ce_consts
              Demo.world "proj" (VStr "ds") (VStr "sandbox") Demo.pipeline
              (VStr "") VNone Demo.cutoff_kwargs Demo.init)
    as [res st'] eqn:Hrun.
  assert (res = inr [{| job_id := "two_query_0" |};
                     {| job_id := "two_query_1" |};
                     {| job_id := "cutoff_2" |}]) as ->
    by (vm_compute in Hrun; congruence).
  exists st'. split; [reflexivity |].
  destruct (clean_dataset_job_order _ _ _ _ _ _ _ _ _ _ _ _ _ _ Hrun)
    as (evs & jobs_of_rule & Htrace & _ & _ & _ & Hsub & _).
  change (trace Demo.init ++ evs) with evs in Htrace. subst evs.
  rewrite Hsub. vm_compute in Hrun. injection Hrun as <-.
  vm_compute. reflexivity.
Defined.

(** ** Preview of the queries *)

Section PreviewProperties.
Context {W Credentials : Type}.
Variable cdr_consts : clean_cdr_consts.
Variable bq_consts : bq_utils_consts.
Variable ce_consts : clean_cdr_engine_consts.
Variable world : collaborators W Credentials.

Implicit Types (st : state W) (client : BigQueryClient Credentials)
  (c : clazz W Credentials) (info : rule_info W Credentials)
  (rules : list (list (clazz W Credentials))) (evs : list event).

(** A rule whose code is fit for a preview: the outcome of its
    constructor and of its query producer is the same in the run and in
    the preview, and the setup, which only the run calls, does not change
    what the producer returns. *)
Local Abbreviation previewable c :=
  (world_independent c /\ setup_keeps_query_specs c).

(** The constructor of a rule that does not look at the world gives an
    instance of the same attributes in any state. *)
Lemma new_instance_again c cls project_id dataset_id sandbox_dataset_id
    table_namer filtered st instance st1 st0 :
  (forall args kwargs w w',
     (cls_init cls args kwargs w).1 = (cls_init cls args kwargs w').1) ->
  new_instance c cls project_id dataset_id sandbox_dataset_id table_namer
    filtered st = (inr instance, st1) ->
  exists attrs st0',
    heap st1 = heap st ++ [attrs]
    /\ new_instance c cls project_id dataset_id sandbox_dataset_id
         table_namer filtered st0 = (inr (length (heap st0)), st0')
    /\ heap st0' = heap st0 ++ [attrs].
Proof.
  intros Hsame Hnew.
  apply new_instance_returns in Hnew as (_ & attrs & Hheap & Hmade).
  exists attrs.
  unfold new_instance, try_except, instantiate, bind, log, emit, is_TypeError.
  destruct Hmade as [Hfirst | (e & w1 & Hfirst & Htype & Hsecond)].
  - pose proof (Hsame
                  [VStr project_id; dataset_id; sandbox_dataset_id; table_namer]
                  filtered (warehouse st0) (warehouse st)) as Hfirst0.
    rewrite Hfirst in Hfirst0. simpl in Hfirst0. rewrite Hfirst0. simpl.
    eexists. split; [exact Hheap |]. split; reflexivity.
  - pose proof (Hsame
                  [VStr project_id; dataset_id; sandbox_dataset_id; table_namer]
                  filtered (warehouse st0) (warehouse st)) as Hfirst0.
    rewrite Hfirst in Hfirst0. simpl in Hfirst0. rewrite Hfirst0. simpl.
    rewrite Htype, bool_decide_eq_true_2 by reflexivity. simpl.
    pose proof (Hsame [VStr project_id; dataset_id; sandbox_dataset_id]
                  filtered
                  (cls_init cls
                     [VStr project_id; dataset_id; sandbox_dataset_id;
                      table_namer] filtered (warehouse st0)).2 w1) as Hsecond0.
    rewrite Hsecond in Hsecond0. simpl in Hsecond0. rewrite Hsecond0. simpl.
    eexists. split; [exact Hheap |]. split; reflexivity.
Qed.

(** An adaptation that returns in one state returns in any other, with an
    instance of the same attributes or the same closure. *)
Lemma infer_rule_again c project_id dataset_id sandbox_dataset_id table_namer
    kwargs st query_function setup_function info st1 st0 :
  world_independent c ->
  infer_rule ce_consts c project_id dataset_id sandbox_dataset_id table_namer
    kwargs st = (inr (query_function, setup_function, info), st1) ->
  exists query_function0 setup_function0 info0 st0',
    infer_rule ce_consts c project_id dataset_id sandbox_dataset_id
      table_namer kwargs st0
    = (inr (query_function0, setup_function0, info0), st0')
    /\ match clazz_shape c with
       | StructuredRule cls =>
           exists attrs,
             heap st1 = heap st ++ [attrs]
             /\ heap st0' = heap st0 ++ [attrs]
             /\ query_function = bound_get_query_specs cls (length (heap st))
             /\ setup_function = bound_setup_rule cls (length (heap st))
             /\ query_function0
                = bound_get_query_specs cls (length (heap st0))
       | LegacyRule f =>
           exists args filtered,
             query_function = legacy_query_function c f args filtered
             /\ query_function0 = query_function
             /\ setup_function = (fun _ => ret tt)
       end.
Proof.
  intros Hsame H.
  apply infer_rule_built in H
    as (filtered & Hfree & Hres & Hshape & module & line & Hmodule & Hline).
  unfold infer_rule, bind, lift, ret.
  rewrite (var_keywords_free _ _ _ Hfree), Hres.
  unfold world_independent, described in *.
  destruct (clazz_shape c) as [cls | f].
  - destruct Hshape as (Hnew & -> & ->). destruct Hsame as [Hsame _].
    destruct (new_instance_again _ _ _ _ _ _ _ _ _ _ st0 Hsame Hnew)
      as (attrs & st0' & Hheap & Hnew0 & Hheap0).
    rewrite Hnew0, Hmodule, Hline.
    do 4 eexists. split; [reflexivity |].
    exists attrs. repeat split; assumption.
  - destruct Hshape as (-> & -> & ->). rewrite Hmodule, Hline.
    do 4 eexists. split; [reflexivity |].
    do 2 eexists. repeat split.
Qed.

Local Abbreviation driver_loop :=
  (clean_dataset_loop cdr_consts bq_consts ce_consts world).

(** The query list a rule's query function gives after the setup, in the
    run, is the one it gives without the setup, in the preview. *)
Lemma query_function_again c client query_function setup_function
    query_function0 st st1 st2 st3 st4 query_list msg st0 st0' :
  previewable c ->
  match clazz_shape c with
  | StructuredRule cls =>
      exists attrs,
        heap st1 = heap st ++ [attrs]
        /\ heap st0' = heap st0 ++ [attrs]
        /\ query_function = bound_get_query_specs cls (length (heap st))
        /\ setup_function = bound_setup_rule cls (length (heap st))
        /\ query_function0 = bound_get_query_specs cls (length (heap st0))
  | LegacyRule f =>
      exists args filtered,
        query_function = legacy_query_function c f args filtered
        /\ query_function0 = query_function
        /\ setup_function = (fun _ => ret tt)
  end ->
  log INFO msg st1 = (inr tt, st2) ->
  setup_function client st2 = (inr tt, st3) ->
  query_function st3 = (inr query_list, st4) ->
  exists st0'', query_function0 st0' = (inr query_list, st0'').
Proof.
  intros [Hsame Hkeeps] Hshape Hlog Hsetup Hquery.
  apply log_returns in Hlog as [_ Hheap2].
  unfold world_independent, setup_keeps_query_specs in *.
  destruct (clazz_shape c) as [cls | f].
  - destruct Hshape as (attrs & Hheap1 & Hheap0 & -> & -> & ->).
    destruct Hsame as [_ Hsame].
    assert (heap st2 !! length (heap st) = Some attrs) as Hlookup.
    { rewrite Hheap2, Hheap1. apply list_lookup_middle. reflexivity. }
    unfold bound_setup_rule in Hsetup. rewrite Hlookup in Hsetup.
    pose proof (Hkeeps client attrs (warehouse st2)) as Hkept.
    destruct (cls_setup_rule cls client attrs (warehouse st2))
      as [[res attrs1] w2].
    simpl in Hkept. simplify_eq.
    unfold bound_get_query_specs in Hquery. simpl in Hquery.
    rewrite list_lookup_insert_eq in Hquery
      by (rewrite Hheap2, Hheap1, length_app; simpl; lia).
    specialize (Hkept w2).
    destruct (cls_get_query_specs cls attrs1 w2) as [[res attrs2] w3].
    simpl in Hkept. assert (res = inr query_list) as -> by congruence.
    unfold bound_get_query_specs. rewrite Hheap0.
    rewrite list_lookup_middle by reflexivity.
    pose proof (Hsame attrs (warehouse st0') w2) as Hpreview.
    destruct (cls_get_query_specs cls attrs (warehouse st0'))
      as [[res0 attrs0] w0].
    simpl in Hpreview. rewrite <- Hkept in Hpreview. subst res0.
    eexists. reflexivity.
  - destruct Hshape as (args & filtered & -> & -> & ->).
    unfold legacy_query_function in *.
    rewrite (Hsame args filtered (warehouse st0') (warehouse st3)).
    simplify_eq. eexists. f_equal. eassumption.
Qed.

Lemma preview_follows_run client project_id dataset_id sandbox_dataset_id
    table_namer kwargs rule_count rules :
  (forall rule c, rule ∈ rules -> rule_0 rule = inr c -> previewable c) ->
  forall rule_index all_jobs0 st all_jobs st' all_queries_list st0,
    driver_loop client project_id dataset_id sandbox_dataset_id table_namer
      kwargs rule_count rule_index rules all_jobs0 st = (inr all_jobs, st') ->
    exists evs st0',
      trace st' = trace st ++ evs
      /\ get_query_list_loop ce_consts project_id dataset_id
           sandbox_dataset_id table_namer kwargs rules all_queries_list st0
         = (inr (all_queries_list ++ concat (produced evs)), st0').
Proof.
  induction rules as [| rule rest IH];
    intros Hfit rule_index all_jobs0 st all_jobs st' acc st0 Hloop.
  - simpl in Hloop. unfold ret in Hloop. simplify_eq.
    exists [], st0. rewrite !app_nil_r. split; reflexivity.
  - apply clean_dataset_loop_step in Hloop
      as (c & query_function & setup_function & info & st1 & msg1 & st2 & st3
          & query_list & st4 & jobs & st5 & msg2 & st6 & Hrule & Hinfer
          & Hlog1 & Hsetup & Hquery & Hrun & Hlog2 & Hloop).
    pose proof (Hfit rule c (list_elem_of_here _ _) Hrule) as Hc.
    destruct (infer_rule_again _ _ _ _ _ _ _ _ _ _ _ st0 (proj1 Hc) Hinfer)
      as (query_function0 & setup_function0 & info0 & stA & Hinfer0 & Hshape).
    destruct (query_function_again c client _ _ _ _ _ _ _ _ _ _ _ _
                Hc Hshape Hlog1 Hsetup Hquery) as (stB & Hquery0).
    apply infer_rule_returns in Hinfer
      as (evs1 & Htrace1 & Hprod1 & _ & Hqf & Hsf).
    apply log_returns in Hlog1 as [Htrace2 _].
    apply Hsf in Hsetup as (evs3 & Htrace3 & Hprod3 & _).
    apply Hqf in Hquery as (evs4 & Htrace4 & Hprod4 & _).
    apply run_queries_returns in Hrun as (evs5 & Htrace5 & _ & Hprod5 & _).
    apply log_returns in Hlog2 as [Htrace6 _].
    apply (IH (fun rule' c' Hin =>
                 Hfit rule' c' (list_elem_of_further _ _ _ Hin))
              _ _ _ _ _ (acc ++ query_list) stB) in Hloop
      as (evs7 & stC & Htrace7 & Hpreview).
    exists (evs1 ++ [EvLog INFO msg1] ++ evs3 ++ evs4 ++ evs5
            ++ [EvLog INFO msg2] ++ evs7), stC.
    split.
    { rewrite Htrace7, Htrace6, Htrace5, Htrace4, Htrace3, Htrace2, Htrace1.
      rewrite <- !app_assoc. reflexivity. }
    rewrite !produced_app, Hprod1, Hprod3, Hprod4, Hprod5. simpl.
    unfold bind, lift. rewrite Hrule, Hinfer0, Hquery0.
    rewrite Hpreview, <- app_assoc. reflexivity.
Qed.

(** Options that [clean_dataset] takes are options [get_query_list]
    takes. *)
Lemma clean_dataset_params_cover (kwargs : dict) :
  free_of clean_dataset_params kwargs -> free_of get_query_list_params kwargs.
Proof.
  unfold free_of, clean_dataset_params, get_query_list_params. intros Hfree.
  repeat match goal with
         | H : Forall _ (_ :: _) |- _ => apply Forall_cons in H as [? H]
         end.
  repeat constructor; assumption.
Qed.


End PreviewProperties.



(** * Further properties of the engine *)

(** ** Parameter resolver *)

Section ResolverFurther.
Context {W Credentials : Type}.
Variable ce_consts : clean_cdr_engine_consts.

Implicit Types (c : clazz W Credentials) (kwargs : dict).

(** X1: the resolver returns exactly when no option is called [clazz],
    like its own parameter, and no parameter that the rule requires and
    the engine does not pass is absent from the options. *)
Theorem get_custom_kwargs_returns_iff c kwargs :
  (exists filtered, get_custom_kwargs ce_consts c kwargs = inr filtered)
  <-> kwargs !! "clazz" = None
      /\ ~ (exists k, required_and_absent ce_consts c kwargs k).
Proof.
  rewrite get_custom_kwargs_unfold. split.
  - intros [filtered Hres].
    destruct (decide (kwargs !! "clazz" = None)) as [Hfree | _];
      [| discriminate].
    split; [exact Hfree |]. intros [k Hk]. apply missing_spec in Hk.
    destruct (decide _) as [Hnil | _]; [| discriminate].
    rewrite Hnil in Hk. apply elem_of_nil in Hk. exact Hk.
  - intros [Hfree Hnone]. rewrite decide_True by exact Hfree.
    destruct (decide _) as [_ | Hne]; [eexists; reflexivity |].
    exfalso. apply Hnone.
    destruct (missing ce_consts c (filtered_kwargs ce_consts c kwargs))
      as [| k rest] eqn:Hmissing; [contradiction |].
    exists k. apply missing_spec. rewrite Hmissing. apply list_elem_of_here.
Qed.

(** X2: resolving the resolver's result again changes nothing. *)
Theorem get_custom_kwargs_idempotent c kwargs filtered :
  get_custom_kwargs ce_consts c kwargs = inr filtered ->
  get_custom_kwargs ce_consts c filtered = inr filtered.
Proof.
  intros Hres.
  apply get_custom_kwargs_returns in Hres as (Hfree & Hnil & ->).
  rewrite get_custom_kwargs_unfold.
  assert (filtered_kwargs ce_consts c (filtered_kwargs ce_consts c kwargs)
          = filtered_kwargs ce_consts c kwargs) as ->.
  { apply map_eq. intros k. rewrite !filtered_kwargs_lookup.
    destruct (decide (declared ce_consts c k)); reflexivity. }
  rewrite decide_True.
  - destruct (decide _) as [_ | Hne]; [reflexivity | contradiction].
  - rewrite filtered_kwargs_lookup, Hfree.
    destruct (decide (declared ce_consts c "clazz")); reflexivity.
Qed.

(** X3: the resolver's result is part of the supplied options and holds
    none of the names the engine passes itself, so the rule never gets one
    of them a second time by keyword. *)
Theorem get_custom_kwargs_no_engine_names c kwargs filtered :
  get_custom_kwargs ce_consts c kwargs = inr filtered ->
  filtered ⊆ kwargs
  /\ (forall k, k ∈ CLEAN_ENGINE_REQUIRED_PARAMS ce_consts ->
                filtered !! k = None).
Proof.
  intros Hres.
  apply get_custom_kwargs_returns in Hres as (_ & _ & ->). split.
  - apply map_filter_subseteq.
  - intros k Hk. rewrite filtered_kwargs_lookup.
    destruct (decide (declared ce_consts c k)) as [[_ Hno] | _];
      [contradiction | reflexivity].
Qed.

(** X4: [get_rule_args] lists the names of the signature in its order, the
    engine's names included, and flags as required every name that the
    resolver reports missing. *)
Theorem get_rule_args_covers_missing c kwargs :
  (get_rule_args c).*1 = (clazz_signature c).*1
  /\ (forall k,
        k ∈ missing ce_consts c (filtered_kwargs ce_consts c kwargs) ->
        (k, true) ∈ get_rule_args c).
Proof.
  split.
  - unfold get_rule_args. rewrite <- list_fmap_compose. reflexivity.
  - intros k Hk. apply missing_spec in Hk as [p (Hin & _ & Hdef & _)].
    unfold get_rule_args. apply list_elem_of_fmap. exists (k, p).
    split; [| exact Hin]. simpl. rewrite Hdef.
    rewrite bool_decide_eq_true_2; reflexivity.
Qed.

End ResolverFurther.

Lemma get_custom_kwargs_idempotent_witness :
  get_custom_kwargs Demo.ce_consts Demo.cutoff_rule
    {[ "cutoff_date" := VStr "2022-01-01" ]}
  = inr {[ "cutoff_date" := VStr "2022-01-01" ]}.
Proof.
  apply (get_custom_kwargs_idempotent Demo.ce_consts Demo.cutoff_rule
           Demo.cutoff_kwargs).
  vm_compute. reflexivity.
Defined.

Lemma get_custom_kwargs_no_engine_names_witness :
  ({[ "cutoff_date" := VStr "2022-01-01" ]} : dict) ⊆ Demo.cutoff_kwargs
  /\ (forall k, k ∈ CLEAN_ENGINE_REQUIRED_PARAMS Demo.ce_consts ->
                ({[ "cutoff_date" := VStr "2022-01-01" ]} : dict) !! k = None).
Proof.
  apply (get_custom_kwargs_no_engine_names Demo.ce_consts Demo.cutoff_rule
           Demo.cutoff_kwargs).
  vm_compute. reflexivity.
Defined.

(** ** Job configuration *)

Section JobConfigFurther.
Variable cdr_consts : clean_cdr_consts.
Variable bq_consts : bq_utils_consts.
Variable from_string : string -> result TableReference.

Local Abbreviation generate :=
  (generate_job_config cdr_consts bq_consts from_string).

(** X5: in a configuration built with a destination, the write disposition
    is the one of the query specification, [WRITE_EMPTY] when it has none,
    and legacy SQL and large results are [False] when it has no legacy
    entry. *)
Theorem generate_job_config_defaults project_id query_dict job_config :
  dict_get query_dict (DESTINATION_TABLE cdr_consts) <> VNone ->
  generate project_id query_dict = inr job_config ->
  get_write_disposition job_config
  = dict_get_default query_dict (DISPOSITION cdr_consts)
      (WRITE_EMPTY bq_consts)
  /\ (query_dict !! DISPOSITION cdr_consts = None ->
      get_write_disposition job_config = WRITE_EMPTY bq_consts)
  /\ (query_dict !! LEGACY_SQL cdr_consts = None ->
      get_use_legacy_sql job_config = VBool false
      /\ get_allow_large_results job_config = VBool false)
  /\ is_Some (destination job_config).
Proof.
  intros Hset Hgen.
  destruct (query_dict !! DESTINATION_TABLE cdr_consts) as [table |] eqn:Htable;
    [| unfold dict_get in Hset; rewrite Htable in Hset; contradiction].
  assert (table <> VNone) as Htable_set.
  { intros ->. apply Hset. unfold dict_get. rewrite Htable. reflexivity. }
  rewrite (generate_job_config_destination _ _ _ _ _ _ Htable Htable_set)
    in Hgen.
  destruct (dict_getitem _ _) as [e | dataset]; simpl in Hgen; [discriminate |].
  destruct (from_string _) as [e | reference]; simpl in Hgen; [discriminate |].
  injection Hgen as <-.
  unfold get_write_disposition, get_use_legacy_sql, get_allow_large_results,
    dict_get_default.
  simpl. split; [reflexivity |]. split; [intros ->; reflexivity |].
  split; [intros ->; split; reflexivity |]. eexists; reflexivity.
Qed.

(** X6: building a job configuration raises in two cases only, both with a
    destination table set: the destination dataset key is missing, or the
    library refuses the text [project.dataset.table]. *)
Theorem generate_job_config_raises_iff project_id query_dict :
  raised (generate project_id query_dict)
  <-> exists table,
        query_dict !! DESTINATION_TABLE cdr_consts = Some table
        /\ table <> VNone
        /\ (query_dict !! DESTINATION_DATASET cdr_consts = None
            \/ exists dataset,
                 query_dict !! DESTINATION_DATASET cdr_consts = Some dataset
                 /\ raised (from_string
                              (project_id +:+ "." +:+ format dataset +:+ "."
                               +:+ format table))).
Proof.
  split.
  - intros [e Hraise].
    destruct (query_dict !! DESTINATION_TABLE cdr_consts) as [table |]
      eqn:Htable.
    + destruct (decide (table = VNone)) as [-> | Hset].
      * unfold generate_job_config, dict_get in Hraise.
        rewrite Htable in Hraise. simpl in Hraise. discriminate.
      * exists table. split; [reflexivity |]. split; [exact Hset |].
        rewrite (generate_job_config_destination _ _ _ _ _ _ Htable Hset)
          in Hraise.
        unfold dict_getitem in Hraise.
        destruct (query_dict !! DESTINATION_DATASET cdr_consts)
          as [dataset |]; [| left; reflexivity].
        right. exists dataset. split; [reflexivity |]. simpl in Hraise.
        destruct (from_string _) as [e' | reference];
          [eexists; reflexivity | discriminate].
    + unfold generate_job_config, dict_get in Hraise.
      rewrite Htable in Hraise. simpl in Hraise. discriminate.
  - intros (table & Htable & Hset & Hcase).
    rewrite (generate_job_config_destination _ _ _ _ _ _ Htable Hset).
    unfold dict_getitem.
    destruct Hcase as [Hdataset | (dataset & Hdataset & [e He])];
      rewrite Hdataset; simpl; [| rewrite He]; eexists; reflexivity.
Qed.

End JobConfigFurther.

Lemma generate_job_config_defaults_witness :
  exists job_config,
    generate_job_config Demo.cdr_consts Demo.bq_consts Demo.from_string
      "proj" Demo.legacy_with_destination = inr job_config
    /\ get_write_disposition job_config = VStr "WRITE_EMPTY".
Proof.
  destruct (generate_job_config Demo.cdr_consts Demo.bq_consts
              Demo.from_string "proj" Demo.legacy_with_destination)
    as [e | job_config] eqn:Hgen; [vm_compute in Hgen; discriminate |].
  exists job_config. split; [reflexivity |].
  refine (proj1 (proj2
    (generate_job_config_defaults Demo.cdr_consts Demo.bq_consts
       Demo.from_string "proj" Demo.legacy_with_destination job_config
       _ Hgen)) _).
  - vm_compute. discriminate.
  - vm_compute. reflexivity.
Defined.

(** ** Query job runner *)

Lemma app_eq_self {A} (l k : list A) : l = l ++ k -> k = [].
Proof.
  intros H. apply (app_inv_head l). rewrite <- H, app_nil_r. reflexivity.
Qed.

Lemma result_calls_app evs1 evs2 :
  result_calls (evs1 ++ evs2) = result_calls evs1 ++ result_calls evs2.
Proof. apply omap_app. Qed.

Section RunnerFurther.
Context {W Credentials : Type}.
Variable cdr_consts : clean_cdr_consts.
Variable bq_consts : bq_utils_consts.
Variable ce_consts : clean_cdr_engine_consts.
Variable world : collaborators W Credentials.

Implicit Types (st : state W) (client : BigQueryClient Credentials)
  (info : rule_info W Credentials) (query_dict : dict)
  (query_list : list dict) (evs : list event).

Local Abbreviation text :=
  (fun query_dict => dict_get query_dict (QUERY cdr_consts)).

Local Abbreviation loop :=
  (run_queries_loop cdr_consts bq_consts ce_consts world).

Local Abbreviation guarded_submit client info query_count query_no query_dict :=
  (try_except
     (submit_query cdr_consts bq_consts ce_consts world client info
        query_count query_no query_dict)
     is_cloud_or_timeout
     (log_and_reraise ce_consts client info query_dict)).

Local Abbreviation guarded_await client info query_count query_no query_dict
    query_job :=
  (try_except
     (await_query ce_consts world client info query_count query_no query_dict
        query_job)
     is_cloud_or_timeout
     (log_and_reraise ce_consts client info query_dict)).

Lemma guarded_submit_no_result client info query_count query_no query_dict st
    r st1 evs :
  guarded_submit client info query_count query_no query_dict st = (r, st1) ->
  trace st1 = trace st ++ evs ->
  result_calls evs = [].
Proof.
  intros H Htrace.
  unfold try_except, submit_query, log_and_reraise, call_client_query, bind,
    lift, ret, log, emit, raise in H.
  run_cases H; simplify_eq; simpl in Htrace.
  all: rewrite <- ?app_assoc in Htrace.
  all: first [apply app_eq_self in Htrace | apply app_inv_head in Htrace].
  all: subst evs; reflexivity.
Qed.

Lemma guarded_await_result client info query_count query_no query_dict
    query_job st (u : unit) st2 evs :
  guarded_await client info query_count query_no query_dict query_job st
    = (inr u, st2) ->
  trace st2 = trace st ++ evs ->
  result_calls evs = [(query_job, inr tt)].
Proof.
  intros H Htrace.
  unfold try_except, await_query, log_and_reraise, call_result, read_errors,
    bind, lift, ret, log, emit, raise in H.
  run_cases H; simplify_eq; simpl in Htrace.
  all: rewrite <- ?app_assoc in Htrace.
  all: apply app_inv_head in Htrace; subst evs; simpl.
  all: repeat match goal with u : unit |- _ => destruct u end; reflexivity.
Qed.

(** The calls a loop that returns has made for the jobs it returns. *)
Lemma run_queries_loop_returns client info query_count query_list :
  forall query_no jobs0 st returned jobs st' evs,
    loop client info query_count query_no query_list jobs0 st
      = (inr returned, jobs, st') ->
    trace st' = trace st ++ evs ->
    error_reads evs = (fun job => (job, [])) <$> (submissions evs).*2
    /\ result_calls evs = (fun job => (job, inr tt)) <$> (submissions evs).*2.
Proof.
  induction query_list as [| query_dict rest IH];
    intros query_no jobs0 st returned jobs st' evs Hloop Htrace;
    simpl in Hloop.
  - simplify_eq. apply app_eq_self in Htrace. subst evs.
    split; reflexivity.
  - destruct (guarded_submit client info query_count query_no query_dict st)
      as [[e | query_job] st1] eqn:Hsubmit; [discriminate |].
    destruct (guarded_await client info query_count query_no query_dict
                query_job st1) as [[e | u] st2] eqn:Hawait; [discriminate |].
    pose proof Hsubmit as Hsubmit'. pose proof Hawait as Hawait'.
    apply guarded_submit_events in Hsubmit'
      as (evs1 & Htrace1 & _ & Herr1 & _ & Hsub1 & _).
    apply guarded_await_events in Hawait'
      as (evs2 & Htrace2 & _ & Hsub2 & _ & _ & Herr2).
    pose proof (guarded_submit_no_result _ _ _ _ _ _ _ _ _ Hsubmit Htrace1)
      as Hres1.
    pose proof (guarded_await_result _ _ _ _ _ _ _ _ _ _ Hawait Htrace2)
      as Hres2.
    pose proof Hloop as Hloop'.
    apply run_queries_loop_events in Hloop' as (evs3 & Htrace3 & _).
    destruct (IH _ _ _ _ _ _ evs3 Hloop Htrace3) as [Herr3 Hres3].
    assert (evs = evs1 ++ evs2 ++ evs3) as ->.
    { apply (app_inv_head (trace st)). rewrite <- Htrace, Htrace3, Htrace2,
        Htrace1, <- !app_assoc. reflexivity. }
    rewrite !error_reads_app, !result_calls_app, !submissions_app, Herr1,
      Herr2, Herr3, Hres1, Hres2, Hres3, Hsub1, Hsub2.
    split; reflexivity.
Qed.

(** X7: when the runner returns, it returns one job for each query of the
    list, the one [client.query] gave for it, in the order of the list; it
    has called [result()] on each of them and read from each an empty
    error list. *)
Theorem run_queries_returns_completed_jobs client query_list info st jobs st'
    evs :
  run_queries cdr_consts bq_consts ce_consts world client query_list info st
    = (inr jobs, st') ->
  trace st' = trace st ++ evs ->
  length jobs = length query_list
  /\ submissions evs = zip (text <$> query_list) jobs
  /\ query_calls evs = text <$> query_list
  /\ result_calls evs = (fun job => (job, inr tt)) <$> jobs
  /\ error_reads evs = (fun job => (job, [])) <$> jobs.
Proof.
  unfold run_queries. intros Hrun Htrace.
  destruct (loop client info (length query_list) 0 query_list [] st)
    as [[res jobs'] st1] eqn:Hloop.
  simplify_eq.
  destruct (run_queries_loop_returns _ _ _ _ _ _ _ _ _ _ _ Hloop Htrace)
    as [Herr Hres].
  apply run_queries_loop_events in Hloop
    as (evs' & Htrace' & _ & _ & Hjobs & Hret & _).
  assert (evs' = evs) as ->
    by (apply (app_inv_head (trace st)); congruence).
  destruct (Hret jobs eq_refl) as (-> & Htexts & Hcalls).
  simpl in Hjobs. rewrite Hjobs at 1 2 3 4.
  split.
  { rewrite <- (length_fmap text query_list), <- Htexts, !length_fmap.
    reflexivity. }
  split; [rewrite <- Htexts; symmetry; apply zip_fst_snd |].
  split; [exact Hcalls |]. split; assumption.
Qed.

(** The queries given to the client, however the loop is left. *)
Lemma run_queries_loop_prefix client info query_count query_list :
  forall query_no jobs0 st res jobs st',
    loop client info query_count query_no query_list jobs0 st
      = (res, jobs, st') ->
    exists evs,
      trace st' = trace st ++ evs
      /\ query_calls evs `prefix_of` (text <$> query_list)
      /\ (submissions evs).*1 `prefix_of` query_calls evs
      /\ length (query_calls evs) <= S (length (submissions evs)).
Proof.
  induction query_list as [| query_dict rest IH];
    intros query_no jobs0 st res jobs st' Hloop; simpl in Hloop.
  - simplify_eq. exists []. rewrite app_nil_r. simpl.
    repeat split; try apply prefix_nil. lia.
  - destruct (guarded_submit client info query_count query_no query_dict st)
      as [[e | query_job] st1] eqn:Hsubmit.
    + apply guarded_submit_events in Hsubmit
        as (evs1 & Htrace1 & _ & _ & _ & Hsub1 & Hcalls1).
      simplify_eq. exists evs1. rewrite Hsub1. split; [assumption |].
      destruct Hcalls1 as [-> | ->]; simpl.
      * repeat split; try apply prefix_nil. lia.
      * repeat split; try apply prefix_nil; [| lia].
        apply prefix_cons, prefix_nil.
    + apply guarded_submit_events in Hsubmit
        as (evs1 & Htrace1 & _ & _ & _ & Hsub1 & Hcalls1).
      destruct (guarded_await client info query_count query_no query_dict
                  query_job st1) as [[e | u] st2] eqn:Hawait.
      * apply guarded_await_events in Hawait
          as (evs2 & Htrace2 & _ & Hsub2 & Hcalls2 & _).
        simplify_eq. exists (evs1 ++ evs2).
        rewrite submissions_app, query_calls_app, Hsub1, Hsub2, Hcalls1,
          Hcalls2, Htrace2, Htrace1, app_assoc. simpl.
        repeat split; [| reflexivity | lia].
        apply prefix_cons, prefix_nil.
      * apply guarded_await_events in Hawait
          as (evs2 & Htrace2 & _ & Hsub2 & Hcalls2 & _).
        apply IH in Hloop as (evs3 & Htrace3 & Hpre1 & Hpre2 & Hlen).
        exists (evs1 ++ evs2 ++ evs3).
        rewrite !submissions_app, !query_calls_app, Hsub1, Hsub2, Hcalls1,
          Hcalls2, Htrace3, Htrace2, Htrace1, <- !app_assoc. simpl.
        repeat split; [apply prefix_cons, Hpre1 | apply prefix_cons, Hpre2
                      | lia].
Qed.

(** X8: however the runner ends, the queries it has given to the client
    are the first ones of the list in their order, none skipped and none
    twice; every one gave a job except possibly the last; and the jobs in
    the local list are those the client gave. *)
Theorem run_queries_submits_a_prefix client query_list info st res jobs st'
    evs :
  loop client info (length query_list) 0 query_list [] st = (res, jobs, st') ->
  trace st' = trace st ++ evs ->
  query_calls evs `prefix_of` (text <$> query_list)
  /\ (submissions evs).*1 `prefix_of` query_calls evs
  /\ length (query_calls evs) <= S (length jobs)
  /\ jobs = (submissions evs).*2.
Proof.
  intros Hloop Htrace. pose proof Hloop as Hloop'.
  apply run_queries_loop_prefix in Hloop
    as (evs1 & Htrace1 & Hpre1 & Hpre2 & Hlen).
  apply run_queries_loop_events in Hloop' as (evs2 & Htrace2 & _ & _ & Hjobs & _).
  assert (evs1 = evs) as ->
    by (apply (app_inv_head (trace st)); congruence).
  assert (evs2 = evs) as ->
    by (apply (app_inv_head (trace st)); congruence).
  simpl in Hjobs. subst jobs. rewrite length_fmap.
  repeat split; assumption.
Qed.

(** X9: an exception that [client.query] raises is raised by the runner,
    and the job list is as it was. An exception of the warehouse library or
    a timeout is logged before, with the failure message; when the failure
    message itself cannot be rendered, the exception of the rendering is
    raised instead; any other exception is raised without a log. *)
Theorem run_queries_raises_again client info query_count query_no query_dict
    rest jobs0 st msg job_config e w' :
  let prefix :=
    str_prefix 10 (last_item (split_dot (module_name (ri_metadata info))))
    +:+ "_" in
  QUERY_RUN_MESSAGE_TEMPLATE ce_consts query_no query_count (ri_metadata info)
    = inr msg ->
  generate_job_config cdr_consts bq_consts (TableReference_from_string world)
    (project client) query_dict = inr job_config ->
  client_query world client (text query_dict) job_config prefix (warehouse st)
    = (inl e, w') ->
  exists raised_exn logged,
    loop client info query_count query_no (query_dict :: rest) jobs0 st
    = (inl raised_exn, jobs0,
       {| warehouse := w'; heap := heap st;
          trace := trace st
                   ++ [EvLog INFO msg;
                       EvQuery (text query_dict) job_config prefix (inl e)]
                   ++ logged |})
    /\ if is_cloud_or_timeout e
       then match FAILURE_MESSAGE_TEMPLATE ce_consts
                    (FailedCall (project client) (ri_metadata info)
                       query_dict e) with
            | inr failure => raised_exn = e /\ logged = [EvLog ERROR failure]
            | inl e' => raised_exn = e' /\ logged = []
            end
       else raised_exn = e /\ logged = [].
Proof.
  intros prefix Hmsg Hconfig Hquery. simpl.
  unfold try_except, submit_query, log_and_reraise, call_client_query, bind,
    lift, ret, log, emit, raise.
  rewrite Hmsg. simpl. rewrite Hconfig. simpl. fold prefix.
  rewrite Hquery.
  destruct (is_cloud_or_timeout e).
  - destruct (FAILURE_MESSAGE_TEMPLATE ce_consts _) as [e' | failure]; simpl.
    + exists e', []. split; [| split; reflexivity].
      rewrite <- !app_assoc. reflexivity.
    + exists e, [EvLog ERROR failure]. split; [| split; reflexivity].
      rewrite <- !app_assoc. reflexivity.
  - exists e, []. split; [| split; reflexivity].
    rewrite <- !app_assoc. reflexivity.
Qed.

End RunnerFurther.

Lemma run_queries_returns_completed_jobs_witness :
  exists jobs st',
    run_queries Demo.cdr_consts Demo.bq_consts Demo.ce_consts Demo.world
      Demo.client [Demo.query "SELECT 1"; Demo.query "SELECT 3"] Demo.info
      Demo.init = (inr jobs, st')
    /\ length jobs = 2
    /\ error_reads (trace st') = (fun job => (job, [])) <$> jobs.
Proof.
  destruct (run_queries Demo.cdr_consts Demo.bq_consts Demo.ce_consts
              Demo.world Demo.client
              [Demo.query "SELECT 1"; Demo.query "SELECT 3"] Demo.info
              Demo.init) as [res st'] eqn:Hrun.
  assert (exists jobs, res = inr jobs) as [jobs ->]
    by (vm_compute in Hrun; injection Hrun as <- _; eexists; reflexivity).
  exists jobs, st'. split; [reflexivity |].
  destruct (run_queries_returns_completed_jobs Demo.cdr_consts Demo.bq_consts
              Demo.ce_consts Demo.world Demo.client _ Demo.info Demo.init
              jobs st' (trace st') Hrun eq_refl)
    as (Hlen & _ & _ & _ & Herr).
  split; [exact Hlen | exact Herr].
Defined.

Lemma run_queries_submits_a_prefix_witness :
  exists res jobs st',
    run_queries_loop Demo.cdr_consts Demo.bq_consts Demo.ce_consts Demo.world
      Demo.client Demo.info 3 0 Demo.three_queries [] Demo.init
    = (res, jobs, st')
    /\ query_calls (trace st')
       `prefix_of` [VStr "SELECT 1"; VStr "SELECT error"; VStr "SELECT 3"].
Proof.
  destruct (run_queries_loop Demo.cdr_consts Demo.bq_consts Demo.ce_consts
              Demo.world Demo.client Demo.info 3 0 Demo.three_queries []
              Demo.init) as [[res jobs] st'] eqn:Hloop.
  exists res, jobs, st'. split; [reflexivity |].
  apply (run_queries_submits_a_prefix Demo.cdr_consts Demo.bq_consts
           Demo.ce_consts Demo.world Demo.client Demo.three_queries
           Demo.info Demo.init res jobs st' (trace st') Hloop eq_refl).
Defined.

Lemma run_queries_raises_again_witness :
  exists raised_exn logged,
    run_queries_loop Demo.cdr_consts Demo.bq_consts Demo.ce_consts
      Demo.offline_world Demo.client Demo.info 1 0 [Demo.query "SELECT 1"] []
      Demo.init
    = (inl raised_exn, [],
       {| warehouse := [] : Demo.jobs_table; heap := [];
          trace :=
            [EvLog INFO
               "Running query 0/1 of cdr_cleaner.cleaning_rules.demo_rule";
             EvQuery (VStr "SELECT 1") QueryJobConfig_new "demo_rule_"
               (inl (Exn GoogleCloudError "quota exceeded"))] ++ logged |})
    /\ raised_exn = Exn GoogleCloudError "quota exceeded"
    /\ length logged = 1.
Proof.
  destruct (run_queries_raises_again Demo.cdr_consts Demo.bq_consts
              Demo.ce_consts Demo.offline_world Demo.client Demo.info 1 0
              (Demo.query "SELECT 1") [] [] Demo.init
              "Running query 0/1 of cdr_cleaner.cleaning_rules.demo_rule"
              QueryJobConfig_new (Exn GoogleCloudError "quota exceeded") [])
    as (raised_exn & logged & Hloop & Hcase).
  - vm_compute. reflexivity.
  - vm_compute. reflexivity.
  - vm_compute. reflexivity.
  - exists raised_exn, logged. split; [exact Hloop |].
    vm_compute in Hcase. destruct Hcase as [-> ->]. split; reflexivity.
Defined.

(** ** Rule adapter *)

Section AdapterFurther.
Context {W Credentials : Type}.
Variable ce_consts : clean_cdr_engine_consts.

Implicit Types (c : clazz W Credentials) (st : state W).

(** X10: adapting an old style rule whose module and line are found calls
    nothing and leaves the state as it is. The rule is called only when the
    query function is, with the three identifiers and the filtered options,
    never with the table namer; the setup function does nothing. *)
Theorem infer_rule_legacy_is_lazy c f project_id dataset_id sandbox_dataset_id
    table_namer kwargs filtered module line st :
  clazz_shape c = LegacyRule f ->
  free_of infer_rule_params kwargs ->
  get_custom_kwargs ce_consts c kwargs = inr filtered ->
  obj_module (clazz_info c) = Some module ->
  obj_sourcelines (clazz_info c) = inr line ->
  exists query_function setup_function info,
    infer_rule ce_consts c project_id dataset_id sandbox_dataset_id
      table_namer kwargs st
    = (inr (query_function, setup_function, info), st)
    /\ ri_metadata info
       = {| function_name := obj_name (clazz_info c);
            module_name := module; line_no := line |}
    /\ (forall client st1, setup_function client st1 = (inr tt, st1))
    /\ (forall st1,
          let args := [VStr project_id; dataset_id; sandbox_dataset_id] in
          let out := f args filtered (warehouse st1) in
          query_function st1
          = (out.1,
             {| warehouse := out.2; heap := heap st1;
                trace := trace st1
                         ++ [EvLegacyCall (obj_name (clazz_info c)) args
                               filtered out.1] |})).
Proof.
  intros Hshape Hfree Hkwargs Hmodule Hline.
  unfold infer_rule, bind, lift, ret, getmodule_name.
  rewrite (var_keywords_free _ _ _ Hfree), Hkwargs, Hshape, Hmodule, Hline.
  simpl.
  do 3 eexists. split; [reflexivity |]. split; [reflexivity |].
  split; reflexivity.
Qed.

(** X11: the constructor of a structured rule is called a second time only
    after a [TypeError]. When the call with the table namer returns an
    instance or raises anything else, it is the only call, nothing is
    logged, and the other exception is the adapter's. *)
Theorem infer_rule_no_retry c cls project_id dataset_id sandbox_dataset_id
    table_namer kwargs filtered st :
  let args := [VStr project_id; dataset_id; sandbox_dataset_id; table_namer] in
  clazz_shape c = StructuredRule cls ->
  free_of infer_rule_params kwargs ->
  get_custom_kwargs ce_consts c kwargs = inr filtered ->
  (forall e,
     (cls_init cls args filtered (warehouse st)).1 = inl e ->
     exn_type e <> TypeError) ->
  exists res st' outcome,
    infer_rule ce_consts c project_id dataset_id sandbox_dataset_id
      table_namer kwargs st = (res, st')
    /\ trace st'
       = trace st
         ++ [EvInstantiate (obj_name (clazz_info c)) args filtered outcome]
    /\ match cls_init cls args filtered (warehouse st) with
       | (inl e, w) =>
           res = inl e /\ outcome = inl e /\ heap st' = heap st
           /\ warehouse st' = w
       | (inr attrs, w) =>
           outcome = inr (length (heap st))
           /\ heap st' = heap st ++ [attrs]
           /\ warehouse st' = w
       end.
Proof.
  intros args Hshape Hfree Hkwargs Hother.
  unfold infer_rule, new_instance, bind, lift, try_except, instantiate, ret,
    is_TypeError.
  rewrite (var_keywords_free _ _ _ Hfree), Hkwargs, Hshape. simpl. fold args.
  destruct (cls_init cls args filtered (warehouse st)) as [[e | attrs] w]
    eqn:Hinit; simpl.
  - rewrite bool_decide_eq_false_2 by (apply Hother; reflexivity).
    do 3 eexists. split; [reflexivity |]. simpl.
    split; [reflexivity |]. repeat split.
  - destruct (getmodule_name (cls_get_query_specs_info cls)); simpl;
      [| destruct (obj_sourcelines (cls_get_query_specs_info cls)); simpl].
    all: do 3 eexists; (split; [reflexivity |]); simpl.
    all: split; [reflexivity |]; repeat split.
Qed.

End AdapterFurther.

Lemma infer_rule_legacy_is_lazy_witness :
  exists query_function setup_function info,
    infer_rule Demo.ce_consts Demo.cutoff_rule "proj" (VStr "ds")
      (VStr "sandbox") (VStr "namer") Demo.cutoff_kwargs Demo.init
    = (inr (query_function, setup_function, info), Demo.init)
    /\ module_name (ri_metadata info) = "cdr_cleaner.cleaning_rules.cutoff".
Proof.
  destruct (infer_rule_legacy_is_lazy Demo.ce_consts Demo.cutoff_rule
              _ "proj" (VStr "ds") (VStr "sandbox") (VStr "namer")
              Demo.cutoff_kwargs {[ "cutoff_date" := VStr "2022-01-01" ]}
              "cdr_cleaner.cleaning_rules.cutoff" 12 Demo.init eq_refl)
    as (query_function & setup_function & info & Hinfer & Hmeta & _).
  - apply (bool_decide_unpack _). vm_compute. exact I.
  - vm_compute. reflexivity.
  - reflexivity.
  - reflexivity.
  - exists query_function, setup_function, info.
    split; [exact Hinfer |]. rewrite Hmeta. reflexivity.
Defined.

Lemma infer_rule_no_retry_witness :
  exists res st',
    infer_rule Demo.ce_consts Demo.two_query_rule "proj" (VStr "ds")
      (VStr "sandbox") (VStr "") ∅ Demo.init = (res, st')
    /\ instantiations (trace st')
       = [[VStr "proj"; VStr "ds"; VStr "sandbox"; VStr ""]]
    /\ warnings (trace st') = [].
Proof.
  destruct (infer_rule_no_retry Demo.ce_consts Demo.two_query_rule
              Demo.two_query_class "proj" (VStr "ds") (VStr "sandbox")
              (VStr "") ∅ ∅ Demo.init eq_refl)
    as (res & st' & outcome & Hinfer & Htrace & _).
  - apply (bool_decide_unpack _). vm_compute. exact I.
  - vm_compute. reflexivity.
  - intros e He. discriminate He.
  - exists res, st'. split; [exact Hinfer |]. rewrite Htrace.
    split; reflexivity.
Defined.

(** ** Pipeline driver and preview *)

Section DriverFurther.
Context {W Credentials : Type}.
Variable cdr_consts : clean_cdr_consts.
Variable bq_consts : bq_utils_consts.
Variable ce_consts : clean_cdr_engine_consts.
Variable world : collaborators W Credentials.

Implicit Types (st : state W) (client : BigQueryClient Credentials)
  (c : clazz W Credentials) (rules : list (list (clazz W Credentials))).

Local Abbreviation driver_loop :=
  (clean_dataset_loop cdr_consts bq_consts ce_consts world).

(** The driver's loop over two lists of rules, one after the other. *)
Lemma clean_dataset_loop_append client project_id dataset_id sandbox_dataset_id
    table_namer kwargs rule_count rules1 rules2 :
  forall rule_index all_jobs st,
    driver_loop client project_id dataset_id sandbox_dataset_id table_namer
      kwargs rule_count rule_index (rules1 ++ rules2) all_jobs st
    = match driver_loop client project_id dataset_id sandbox_dataset_id
              table_namer kwargs rule_count rule_index rules1 all_jobs st with
      | (inl e, st') => (inl e, st')
      | (inr jobs, st') =>
          driver_loop client project_id dataset_id sandbox_dataset_id
            table_namer kwargs rule_count (rule_index + length rules1) rules2
            jobs st'
      end.
Proof.
  induction rules1 as [| rule rest IH]; intros rule_index all_jobs st; simpl.
  - unfold ret. rewrite Nat.add_0_r. reflexivity.
  - unfold bind.
    destruct (lift (rule_0 rule) st) as [[e | c] st1]; cbv beta iota;
      [reflexivity |].
    destruct (infer_rule ce_consts c project_id dataset_id sandbox_dataset_id
                table_namer kwargs st1)
      as [[e | [[query_function setup_function] info]] st2]; cbv beta iota;
      [reflexivity |].
    destruct (log INFO _ st2) as [[e | u1] st3]; cbv beta iota;
      [reflexivity |].
    destruct (setup_function client st3) as [[e | u2] st4]; cbv beta iota;
      [reflexivity |].
    destruct (query_function st4) as [[e | query_list] st5]; cbv beta iota;
      [reflexivity |].
    destruct (run_queries cdr_consts bq_consts ce_consts world client
                query_list info st5) as [[e | jobs] st6]; cbv beta iota;
      [reflexivity |].
    destruct (log INFO _ st6) as [[e | u3] st7]; cbv beta iota;
      [reflexivity |].
    rewrite IH, Nat.add_succ_r. reflexivity.
Qed.

(** X12: when the driver's loop over a first list of rules returns, the
    loop over this list followed by a second one goes on with the second
    list from the jobs collected and the state reached; when it raises, the
    loop over both raises the same in the same state, and no rule of the
    second list is adapted. *)
Theorem clean_dataset_loop_continues client project_id dataset_id
    sandbox_dataset_id table_namer kwargs rule_count rules1 rules2 rule_index
    all_jobs st res st' :
  driver_loop client project_id dataset_id sandbox_dataset_id table_namer
    kwargs rule_count rule_index rules1 all_jobs st = (res, st') ->
  driver_loop client project_id dataset_id sandbox_dataset_id table_namer
    kwargs rule_count rule_index (rules1 ++ rules2) all_jobs st
  = match res with
    | inl e => (inl e, st')
    | inr jobs =>
        driver_loop client project_id dataset_id sandbox_dataset_id
          table_namer kwargs rule_count (rule_index + length rules1) rules2
          jobs st'
    end.
Proof.
  intros Hfirst. rewrite clean_dataset_loop_append, Hfirst. reflexivity.
Qed.

(** X13: the parameters of a rule are checked when its turn comes, not
    before the run: when the rules before it have run and returned, a rule
    with a required parameter missing makes the driver raise the resolver's
    error in the state these rules left, their queries submitted. The
    options are named like none of the adapter's parameters. *)
Theorem clean_dataset_checks_parameters_late client project_id dataset_id
    sandbox_dataset_id table_namer kwargs rule_count rules1 rule rules2
    rule_index all_jobs st jobs st' c e :
  driver_loop client project_id dataset_id sandbox_dataset_id table_namer
    kwargs rule_count rule_index rules1 all_jobs st = (inr jobs, st') ->
  rule_0 rule = inr c ->
  free_of infer_rule_params kwargs ->
  get_custom_kwargs ce_consts c kwargs = inl e ->
  driver_loop client project_id dataset_id sandbox_dataset_id table_namer
    kwargs rule_count rule_index (rules1 ++ rule :: rules2) all_jobs st
  = (inl e, st').
Proof.
  intros Hfirst Hrule Hfree Hkwargs.
  rewrite clean_dataset_loop_append, Hfirst. simpl.
  unfold bind, lift, infer_rule. rewrite Hrule. unfold bind, lift.
  rewrite (var_keywords_free _ _ _ Hfree), Hkwargs. reflexivity.
Qed.

(** The preview's loop adds to the list it is given. *)
Lemma get_query_list_loop_from project_id dataset_id sandbox_dataset_id
    table_namer kwargs rules :
  forall all_queries_list st,
    get_query_list_loop ce_consts project_id dataset_id sandbox_dataset_id
      table_namer kwargs rules all_queries_list st
    = match get_query_list_loop ce_consts project_id dataset_id
              sandbox_dataset_id table_namer kwargs rules [] st with
      | (inl e, st') => (inl e, st')
      | (inr queries, st') => (inr (all_queries_list ++ queries), st')
      end.
Proof.
  induction rules as [| rule rest IH]; intros acc st; simpl.
  - unfold ret. rewrite app_nil_r. reflexivity.
  - unfold bind.
    destruct (lift (rule_0 rule) st) as [[e | c] st1]; cbv beta iota;
      [reflexivity |].
    destruct (infer_rule ce_consts c project_id dataset_id sandbox_dataset_id
                table_namer kwargs st1)
      as [[e | [[query_function setup_function] info]] st2]; cbv beta iota;
      [reflexivity |].
    destruct (query_function st2) as [[e | query_list] st3]; cbv beta iota;
      [reflexivity |].
    rewrite (IH (acc ++ query_list)), (IH ([] ++ query_list)).
    destruct (get_query_list_loop ce_consts project_id dataset_id
                sandbox_dataset_id table_namer kwargs rest [] st3)
      as [[e | queries] st4]; [reflexivity |].
    rewrite app_assoc. reflexivity.
Qed.

Lemma get_query_list_loop_append project_id dataset_id sandbox_dataset_id
    table_namer kwargs rules1 rules2 :
  forall all_queries_list st,
    get_query_list_loop ce_consts project_id dataset_id sandbox_dataset_id
      table_namer kwargs (rules1 ++ rules2) all_queries_list st
    = match get_query_list_loop ce_consts project_id dataset_id
              sandbox_dataset_id table_namer kwargs rules1 all_queries_list
              st with
      | (inl e, st') => (inl e, st')
      | (inr queries, st') =>
          get_query_list_loop ce_consts project_id dataset_id
            sandbox_dataset_id table_namer kwargs rules2 queries st'
      end.
Proof.
  induction rules1 as [| rule rest IH]; intros acc st; simpl.
  - reflexivity.
  - unfold bind.
    destruct (lift (rule_0 rule) st) as [[e | c] st1]; cbv beta iota;
      [reflexivity |].
    destruct (infer_rule ce_consts c project_id dataset_id sandbox_dataset_id
                table_namer kwargs st1)
      as [[e | [[query_function setup_function] info]] st2]; cbv beta iota;
      [reflexivity |].
    destruct (query_function st2) as [[e | query_list] st3]; cbv beta iota;
      [reflexivity |].
    apply IH.
Qed.

(** X14: the preview of two lists of rules, one after the other, is the
    preview of the first followed by the preview of the second in the state
    the first left, and its query list is the two lists concatenated; it
    raises what the first of them to raise does. *)
Theorem get_query_list_app project_id dataset_id sandbox_dataset_id
    table_namer kwargs rules1 rules2 st :
  get_query_list ce_consts project_id dataset_id sandbox_dataset_id
    (rules1 ++ rules2) table_namer kwargs st
  = match get_query_list ce_consts project_id dataset_id sandbox_dataset_id
            rules1 table_namer kwargs st with
    | (inl e, st1) => (inl e, st1)
    | (inr queries1, st1) =>
        match get_query_list ce_consts project_id dataset_id
                sandbox_dataset_id rules2 table_namer kwargs st1 with
        | (inl e, st2) => (inl e, st2)
        | (inr queries2, st2) => (inr (queries1 ++ queries2), st2)
        end
    end.
Proof.
  unfold get_query_list, bind, lift.
  destruct (var_keywords "get_query_list" get_query_list_params kwargs)
    as [e | bound] eqn:Hbound; [reflexivity |].
  apply var_keywords_returns in Hbound as [-> _].
  rewrite get_query_list_loop_append.
  destruct (get_query_list_loop ce_consts project_id dataset_id
              sandbox_dataset_id table_namer kwargs rules1 [] st)
    as [[e | queries1] st1]; [reflexivity |].
  apply get_query_list_loop_from.
Qed.

End DriverFurther.

Lemma clean_dataset_loop_continues_witness :
  exists st',
    clean_dataset_loop Demo.cdr_consts Demo.bq_consts Demo.ce_consts
      Demo.world Demo.client "proj" (VStr "ds") (VStr "sandbox") (VStr "")
      Demo.cutoff_kwargs 2 0 ([[Demo.two_query_rule]] ++ [[Demo.cutoff_rule]])
      [] Demo.init
    = clean_dataset_loop Demo.cdr_consts Demo.bq_consts Demo.ce_consts
        Demo.world Demo.client "proj" (VStr "ds") (VStr "sandbox") (VStr "")
        Demo.cutoff_kwargs 2 1 [[Demo.cutoff_rule]]
        [{| job_id := "two_query_0" |}; {| job_id := "two_query_1" |}] st'.
Proof.
  destruct (clean_dataset_loop Demo.cdr_consts Demo.bq_consts Demo.ce_consts
              Demo.world Demo.client "proj" (VStr "ds") (VStr "sandbox")
              (VStr "") Demo.cutoff_kwargs 2 0 [[Demo.two_query_rule]] []
              Demo.init) as [res st'] eqn:Hfirst.
  exists st'.
  rewrite (clean_dataset_loop_continues Demo.cdr_consts Demo.bq_consts
             Demo.ce_consts Demo.world Demo.client "proj" (VStr "ds")
             (VStr "sandbox") (VStr "") Demo.cutoff_kwargs 2
             [[Demo.two_query_rule]] [[Demo.cutoff_rule]] 0 [] Demo.init
             res st' Hfirst).
  vm_compute in Hfirst. injection Hfirst as <- _. reflexivity.
Defined.

Lemma clean_dataset_checks_parameters_late_witness :
  exists st',
    clean_dataset_loop Demo.cdr_consts Demo.bq_consts Demo.ce_consts
      Demo.world Demo.client "proj" (VStr "ds") (VStr "sandbox") (VStr "")
      Demo.extra_kwargs 2 0 ([[Demo.two_query_rule]] ++ [[Demo.cutoff_rule]])
      [] Demo.init
    = (inl (Exn ValueError
              ("Params ['cutoff_date'] not provided for cleaning rule "
               +:+ "get_cutoff_queries")), st')
    /\ (submissions (trace st')).*2
       = [{| job_id := "two_query_0" |}; {| job_id := "two_query_1" |}].
Proof.
  destruct (clean_dataset_loop Demo.cdr_consts Demo.bq_consts Demo.ce_consts
              Demo.world Demo.client "proj" (VStr "ds") (VStr "sandbox")
              (VStr "") Demo.extra_kwargs 2 0 [[Demo.two_query_rule]] []
              Demo.init) as [res st'] eqn:Hfirst.
  assert (exists jobs, res = inr jobs) as [jobs ->]
    by (vm_compute in Hfirst; injection Hfirst as <- _; eexists; reflexivity).
  exists st'. split.
  - apply (clean_dataset_checks_parameters_late Demo.cdr_consts
             Demo.bq_consts Demo.ce_consts Demo.world Demo.client "proj"
             (VStr "ds") (VStr "sandbox") (VStr "") Demo.extra_kwargs 2
             [[Demo.two_query_rule]] [Demo.cutoff_rule] [] 0 [] Demo.init
             jobs st' Demo.cutoff_rule _ Hfirst eq_refl).
    + apply (bool_decide_unpack _). vm_compute. exact I.
    + vm_compute. reflexivity.
  - vm_compute in Hfirst. injection Hfirst as _ <-. vm_compute. reflexivity.
Defined.


(** ** The client *)

Section ClientFurther.
Context {W Credentials : Type}.
Variable world : collaborators W Credentials.
Variable auth : client_collaborators Credentials.

(** X15: the constructor sets up tracing with the project it was given,
    whatever the scopes. With scopes, the client itself is made with
    neither the project nor the credentials given: its project is the one
    [google.auth.default] finds and its credentials are the delegated
    ones; without scopes the client is made with the project and the
    credentials given. *)
Theorem BigQueryClient_init_scopes project_id scopes credentials0 client :
  BigQueryClient_init world auth project_id scopes credentials0 = inr client ->
  start_tracing auth project_id = inr tt
  /\ Client_init world (project client) (credentials client) = inr tt
  /\ if scopes_given scopes
     then exists found_credentials found_project delegated,
            google_auth_default auth = inr (found_credentials, found_project)
            /\ delegated_credentials auth found_credentials (default [] scopes)
               = inr delegated
            /\ project client = found_project
            /\ credentials client = Some delegated
     else project client = project_id /\ credentials client = credentials0.
Proof.
  unfold BigQueryClient_init, rbind. intros Hinit.
  destruct (start_tracing auth project_id) as [e | []]; [discriminate |].
  split; [reflexivity |].
  destruct (scopes_given scopes).
  - destruct (google_auth_default auth)
      as [e | [found_credentials found_project]] eqn:Hfound; [discriminate |].
    cbn [fst snd] in Hinit.
    destruct (delegated_credentials auth found_credentials (default [] scopes))
      as [e | delegated] eqn:Hdelegated; [discriminate |].
    cbn [fst snd] in Hinit.
    destruct (Client_init world found_project (Some delegated)) as [e | []]
      eqn:Hclient; [discriminate |].
    injection Hinit as <-. split; [exact Hclient |].
    exists found_credentials, found_project, delegated.
    split; [reflexivity |]. split; [exact Hdelegated |]. split; reflexivity.
  - cbn [fst snd] in Hinit.
    destruct (Client_init world project_id credentials0) as [e | []]
      eqn:Hclient; [discriminate |].
    injection Hinit as <-. split; [exact Hclient |]. split; reflexivity.
Qed.

End ClientFurther.

Lemma BigQueryClient_init_scopes_witness :
  exists client,
    BigQueryClient_init Demo.world Demo.auth "proj" (Some ["bigquery"])
      (Some "given") = inr client
    /\ project client = "default-project"
    /\ credentials client = Some "delegated:adc".
Proof.
  destruct (BigQueryClient_init Demo.world Demo.auth "proj"
              (Some ["bigquery"]) (Some "given")) as [e | client] eqn:Hinit;
    [vm_compute in Hinit; discriminate |].
  exists client. split; [reflexivity |].
  destruct (BigQueryClient_init_scopes Demo.world Demo.auth "proj"
              (Some ["bigquery"]) (Some "given") client Hinit)
    as (_ & _ & found_credentials & found_project & delegated & Hfound
        & Hdelegated & -> & ->).
  vm_compute in Hfound. injection Hfound as <- <-.
  vm_compute in Hdelegated. injection Hdelegated as <-.
  split; reflexivity.
Defined.

(** ** The rule [QRIDtoRID] *)

Section QuestionnaireResponseIdMapFurther.
Context {W Credentials : Type}.
Variable cdr_consts : clean_cdr_consts.
Variable bq_consts : bq_utils_consts.
Variable ce_consts : clean_cdr_engine_consts.
Variable world : collaborators W Credentials.
Variable BaseCleaningRule_init : dict -> dict -> result dict.
Variable QRID_RID_MAPPING_QUERY_render : dict -> result string.
Variable DEID_QUESTIONNAIRE_RESPONSE_MAP : value.
Variable module : string.

Local Abbreviation rule :=
  (@QRIDtoRID W Credentials cdr_consts BaseCleaningRule_init
     QRID_RID_MAPPING_QUERY_render DEID_QUESTIONNAIRE_RESPONSE_MAP module).

Local Abbreviation rule_class :=
  (@QRIDtoRID_class W Credentials cdr_consts BaseCleaningRule_init
     QRID_RID_MAPPING_QUERY_render DEID_QUESTIONNAIRE_RESPONSE_MAP module).

(** The engine passes the four identifiers itself. *)
Hypothesis engine_names :
  CLEAN_ENGINE_REQUIRED_PARAMS ce_consts
  = list_to_set
      ["project_id"; "dataset_id"; "sandbox_dataset_id"; "table_namer"].

Lemma QRIDtoRID_rule_params :
  rule_params ce_consts rule
  = [(map_dataset_param, {| param_default := Some VNone |})].
Proof. unfold rule_params. rewrite engine_names. vm_compute. reflexivity. Qed.

(** The resolver keeps the map dataset option only, and raises for no
    options it can be called with. *)
Lemma QRIDtoRID_kwargs kwargs :
  kwargs !! "clazz" = None ->
  exists filtered,
    get_custom_kwargs ce_consts rule kwargs = inr filtered
    /\ filtered !! map_dataset_param = kwargs !! map_dataset_param
    /\ (forall k, k <> map_dataset_param -> filtered !! k = None).
Proof.
  intros Hfree. exists (filtered_kwargs ce_consts rule kwargs).
  rewrite get_custom_kwargs_unfold, decide_True by exact Hfree.
  unfold missing, filtered_kwargs.
  rewrite QRIDtoRID_rule_params.
  rewrite filter_cons_False by (simpl; intros [_ H]; discriminate H).
  rewrite filter_nil. simpl. split; [reflexivity |]. split.
  - destruct (kwargs !! map_dataset_param) as [v |] eqn:Hgiven.
    + apply map_lookup_filter_Some. split; [exact Hgiven |].
      simpl. apply list_elem_of_here.
    + apply map_lookup_filter_None. left. exact Hgiven.
  - intros k Hk. apply map_lookup_filter_None. right. intros v _ Hin.
    simpl in Hin. apply list_elem_of_singleton in Hin. contradiction.
Qed.

Lemma map_dataset_declared :
  map_dataset_param ∈ (QRIDtoRID_signature).*1.
Proof. apply (bool_decide_unpack _). vm_compute. exact I. Qed.

(** The constructor refuses a call of the engine without map dataset. *)
Lemma QRIDtoRID_init_without_map_dataset args filtered :
  length args = 3 \/ length args = 4 ->
  (forall k, k <> map_dataset_param -> filtered !! k = None) ->
  truthy (dict_get filtered map_dataset_param) = false ->
  QRIDtoRID_init BaseCleaningRule_init args filtered = inl map_dataset_error.
Proof.
  intros Hlength Hother Hfalsy.
  assert (map_Forall (fun k _ => k ∈ (QRIDtoRID_signature).*1) filtered)
    as Hknown.
  { intros k v Hk. destruct (decide (k = map_dataset_param)) as [-> | Hne];
      [apply map_dataset_declared |].
    rewrite (Hother k Hne) in Hk. discriminate. }
  unfold QRIDtoRID_init, bind_arguments.
  destruct args as [| a1 [| a2 [| a3 [| a4 [| a5 rest]]]]];
    simpl in Hlength; try (destruct Hlength; discriminate).
  - rewrite decide_False by (simpl; lia). simpl.
    rewrite decide_True
      by (repeat constructor; apply Hother; unfold map_dataset_param;
          discriminate).
    rewrite decide_True by exact Hknown. simpl.
    rewrite (Hother "table_namer") by (unfold map_dataset_param; discriminate).
    simpl. unfold dict_get in Hfalsy.
    destruct (filtered !! map_dataset_param) as [v |]; simpl;
      unfold dict_get at 1; rewrite lookup_insert_eq; simpl;
      simpl in Hfalsy; try rewrite Hfalsy; reflexivity.
  - rewrite decide_False by (simpl; lia). simpl.
    rewrite decide_True
      by (repeat constructor; apply Hother; unfold map_dataset_param;
          discriminate).
    rewrite decide_True by exact Hknown. simpl.
    unfold dict_get in Hfalsy.
    destruct (filtered !! map_dataset_param) as [v |]; simpl;
      unfold dict_get at 1; rewrite lookup_insert_eq; simpl;
      simpl in Hfalsy; try rewrite Hfalsy; reflexivity.
Qed.

(** X16: adapting [QRIDtoRID] when the options give no map dataset, or an
    empty one or [None], raises the constructor's [TypeError], after the
    constructor was called with the table namer, the warning that the rule
    does not accept the table namer was logged, and the constructor was
    called again without. The options are named like none of the adapter's
    parameters. *)
Theorem infer_rule_QRIDtoRID_without_map_dataset project_id dataset_id
    sandbox_dataset_id table_namer kwargs (st : state W) :
  free_of infer_rule_params kwargs ->
  truthy (dict_get kwargs map_dataset_param) = false ->
  exists filtered st',
    infer_rule ce_consts rule project_id dataset_id sandbox_dataset_id
      table_namer kwargs st = (inl map_dataset_error, st')
    /\ heap st' = heap st
    /\ warehouse st' = warehouse st
    /\ trace st'
       = trace st
         ++ [EvInstantiate "QRIDtoRID"
               [VStr project_id; dataset_id; sandbox_dataset_id; table_namer]
               filtered (inl map_dataset_error);
             EvLog WARNING
               "QRIDtoRID does not accept the `table_namer` property yet.";
             EvInstantiate "QRIDtoRID"
               [VStr project_id; dataset_id; sandbox_dataset_id]
               filtered (inl map_dataset_error)].
Proof.
  intros Hfree Hfalsy.
  destruct (QRIDtoRID_kwargs kwargs) as (filtered & Hkwargs & Hsame & Hother).
  { apply Forall_cons in Hfree as [Hclazz _]. exact Hclazz. }
  assert (truthy (dict_get filtered map_dataset_param) = false) as Hfalsy'
    by (unfold dict_get in *; rewrite Hsame; exact Hfalsy).
  exists filtered.
  unfold infer_rule, new_instance, bind, lift, try_except, instantiate, log,
    emit, is_TypeError.
  rewrite (var_keywords_free _ _ _ Hfree), Hkwargs. simpl.
  rewrite !QRIDtoRID_init_without_map_dataset
    by (simpl; auto). simpl.
  eexists. split; [reflexivity |]. split; [reflexivity |].
  split; [reflexivity |]. simpl.
  rewrite <- !app_assoc. reflexivity.
Qed.

(** X19: adapting [QRIDtoRID] with a map dataset in the options calls the
    constructor once, with the table namer, and logs no warning: the
    instance is what the base class makes of the map dataset and the four
    identifiers, and the adaptation returns. The options are named like
    none of the adapter's parameters. *)
Theorem infer_rule_QRIDtoRID_with_map_dataset project_id dataset_id
    sandbox_dataset_id table_namer kwargs map_dataset attrs (st : state W) :
  free_of infer_rule_params kwargs ->
  kwargs !! map_dataset_param = Some map_dataset ->
  truthy map_dataset = true ->
  BaseCleaningRule_init {[ map_dataset_param := map_dataset ]}
    (<[ "project_id" := VStr project_id ]>
       (<[ "dataset_id" := dataset_id ]>
          (<[ "sandbox_dataset_id" := sandbox_dataset_id ]>
             {[ "table_namer" := table_namer ]}))) = inr attrs ->
  exists filtered adapted st',
    infer_rule ce_consts rule project_id dataset_id sandbox_dataset_id
      table_namer kwargs st = (inr adapted, st')
    /\ heap st' = heap st ++ [attrs]
    /\ trace st'
       = trace st
         ++ [EvInstantiate "QRIDtoRID"
               [VStr project_id; dataset_id; sandbox_dataset_id; table_namer]
               filtered (inr (length (heap st)))].
Proof.
  intros Hfree Hgiven Htruthy Hbase.
  destruct (QRIDtoRID_kwargs kwargs) as (filtered & Hkwargs & Hsame & Hother).
  { apply Forall_cons in Hfree as [Hclazz _]. exact Hclazz. }
  rewrite Hgiven in Hsame.
  assert (map_Forall (fun k _ => k ∈ (QRIDtoRID_signature).*1) filtered)
    as Hknown.
  { intros k v Hk. destruct (decide (k = map_dataset_param)) as [-> | Hne];
      [apply map_dataset_declared |].
    rewrite (Hother k Hne) in Hk. discriminate. }
  assert (QRIDtoRID_init BaseCleaningRule_init
            [VStr project_id; dataset_id; sandbox_dataset_id; table_namer]
            filtered = inr attrs) as Hinit.
  { unfold QRIDtoRID_init, bind_arguments.
    rewrite decide_False by (simpl; lia). simpl.
    rewrite decide_True
      by (repeat constructor; apply Hother; unfold map_dataset_param;
          discriminate).
    rewrite decide_True by exact Hknown. simpl. rewrite Hsame. simpl.
    unfold dict_get at 1. rewrite lookup_insert_eq. simpl.
    rewrite Htruthy. simpl. rewrite <- Hbase. unfold dict_get.
    rewrite lookup_insert_eq.
    repeat (rewrite lookup_insert_ne
              by (unfold map_dataset_param; discriminate)).
    rewrite !lookup_insert_eq.
    repeat (rewrite lookup_insert_ne by discriminate;
            rewrite ?lookup_insert_eq).
    reflexivity. }
  exists filtered.
  unfold infer_rule, new_instance, bind, lift, try_except, instantiate, log,
    emit, ret.
  rewrite (var_keywords_free _ _ _ Hfree), Hkwargs. simpl.
  rewrite Hinit. simpl.
  do 2 eexists. split; [reflexivity |]. split; reflexivity.
Qed.

(** X17: when [get_query_specs] of [QRIDtoRID] returns, it returns one
    query specification, which holds the query text and nothing else; as
    long as the query key is not the destination table key, the job for it
    is configured by default, without destination. *)
Theorem QRIDtoRID_single_query self query_list :
  QRIDtoRID_get_query_specs cdr_consts QRID_RID_MAPPING_QUERY_render
    DEID_QUESTIONNAIRE_RESPONSE_MAP self = inr query_list ->
  exists text,
    query_list = [{[ QUERY cdr_consts := VStr text ]}]
    /\ (QUERY cdr_consts <> DESTINATION_TABLE cdr_consts ->
        forall from_string project_id,
          generate_job_config cdr_consts bq_consts from_string project_id
            {[ QUERY cdr_consts := VStr text ]} = inr QueryJobConfig_new).
Proof.
  unfold QRIDtoRID_get_query_specs, rbind. intros Hspecs.
  destruct (getattr self "project_id"); [discriminate |].
  destruct (getattr self "dataset_id"); [discriminate |].
  destruct (getattr self map_dataset_param); [discriminate |].
  destruct (QRID_RID_MAPPING_QUERY_render _) as [e | text]; [discriminate |].
  injection Hspecs as <-. exists text. split; [reflexivity |].
  intros Hkeys from_string project_id. unfold generate_job_config, dict_get.
  rewrite lookup_singleton_ne by exact Hkeys. reflexivity.
Qed.

(** The code of [QRIDtoRID] is fit for a preview: nothing in it looks at
    the warehouse, and its setup does nothing. *)
Lemma QRIDtoRID_previewable :
  world_independent rule /\ setup_keeps_query_specs rule.
Proof. split; [split |]; hnf; intros; reflexivity. Qed.

(** X18: for the rule list of the module's command line, [QRIDtoRID]
    alone, listing the queries gives what running them obtained: when
    [clean_dataset] returns, [get_query_list] returns, for the same
    options, the query lists [clean_dataset] got from the rule. *)
Theorem QRIDtoRID_list_queries_matches_run project_id dataset_id
    sandbox_dataset_id table_namer run_as kwargs (st : state W) all_jobs st'
    evs st0 :
  clean_dataset cdr_consts bq_consts ce_consts world project_id dataset_id
    sandbox_dataset_id [[rule]] table_namer run_as kwargs st
    = (inr all_jobs, st') ->
  trace st' = trace st ++ evs ->
  exists st0',
    get_query_list ce_consts project_id dataset_id sandbox_dataset_id
      [[rule]] table_namer kwargs st0 = (inr (concat (produced evs)), st0').
Proof.
  intros H Htrace.
  apply clean_dataset_returns in H as (Hfree & client & _ & H).
  eapply (preview_follows_run _ _ _ _ _ _ _ _ _ _ _ _) in H
    as (evs' & st0' & Htrace' & Hpreview).
  - assert (evs' = evs) as ->
      by (apply (app_inv_head (trace st)); congruence).
    exists st0'. unfold get_query_list, bind, lift.
    rewrite var_keywords_free by (apply clean_dataset_params_cover, Hfree).
    exact Hpreview.
  - intros rl c Hin Hrule.
    apply list_elem_of_singleton in Hin. subst rl.
    injection Hrule as <-. apply QRIDtoRID_previewable.
Qed.

End QuestionnaireResponseIdMapFurther.

Lemma infer_rule_QRIDtoRID_without_map_dataset_witness :
  exists st',
    infer_rule Demo.ce_consts Demo.qrid_rule "proj" (VStr "ds")
      (VStr "sandbox") (VStr "") ∅ Demo.init
    = (inl map_dataset_error, st')
    /\ warnings (trace st')
       = ["QRIDtoRID does not accept the `table_namer` property yet."].
Proof.
  assert (truthy (dict_get (∅ : dict) map_dataset_param) = false) as Hfalsy
    by (vm_compute; reflexivity).
  assert (free_of infer_rule_params (∅ : dict)) as Hfree
    by (apply (bool_decide_unpack _); vm_compute; exact I).
  destruct (infer_rule_QRIDtoRID_without_map_dataset
              (W:=Demo.jobs_table) (Credentials:=string) Demo.cdr_consts
              Demo.ce_consts Demo.base_init Demo.render_mapping_query
              Demo.deid_map Demo.qrid_module eq_refl "proj" (VStr "ds")
              (VStr "sandbox") (VStr "") ∅ Demo.init Hfree Hfalsy)
    as (filtered & st' & Hinfer & _ & _ & Htrace).
  exists st'. split; [exact Hinfer |]. rewrite Htrace. reflexivity.
Defined.

Lemma QRIDtoRID_single_query_witness :
  exists text,
    QRIDtoRID_get_query_specs Demo.cdr_consts Demo.render_mapping_query
      Demo.deid_map Demo.qrid_instance
    = inr [{[ QUERY Demo.cdr_consts := VStr text ]}].
Proof.
  destruct (QRIDtoRID_get_query_specs Demo.cdr_consts
              Demo.render_mapping_query Demo.deid_map Demo.qrid_instance)
    as [e | query_list] eqn:Hspecs; [vm_compute in Hspecs; discriminate |].
  destruct (QRIDtoRID_single_query Demo.cdr_consts Demo.bq_consts
              Demo.render_mapping_query Demo.deid_map Demo.qrid_instance
              query_list Hspecs) as (text & -> & _).
  exists text. reflexivity.
Defined.

Lemma QRIDtoRID_list_queries_matches_run_witness :
  exists queries st0',
    get_query_list Demo.ce_consts "proj" (VStr "ds") (VStr "sandbox")
      [[Demo.qrid_rule]] (VStr "") Demo.qrid_kwargs Demo.init
    = (inr queries, st0')
    /\ length queries = 1.
Proof.
  destruct (clean_dataset Demo.cdr_consts Demo.bq_consts Demo.ce_consts
              Demo.world "proj" (VStr "ds") (VStr "sandbox")
              [[Demo.qrid_rule]] (VStr "") VNone Demo.qrid_kwargs Demo.init)
    as [res st'] eqn:Hrun.
  assert (exists all_jobs, res = inr all_jobs) as [all_jobs ->]
    by (vm_compute in Hrun; injection Hrun as <- _; eexists; reflexivity).
  destruct (QRIDtoRID_list_queries_matches_run Demo.cdr_consts Demo.bq_consts
              Demo.ce_consts Demo.world Demo.base_init
              Demo.render_mapping_query Demo.deid_map Demo.qrid_module
              "proj" (VStr "ds") (VStr "sandbox") (VStr "") VNone
              Demo.qrid_kwargs Demo.init all_jobs st' (trace st') Demo.init
              Hrun eq_refl) as (st0' & Hpreview).
  exists (concat (produced (trace st'))), st0'. split; [exact Hpreview |].
  vm_compute in Hrun. injection Hrun as _ <-. reflexivity.
Defined.

Lemma infer_rule_QRIDtoRID_with_map_dataset_witness :
  exists adapted st',
    infer_rule Demo.ce_consts Demo.qrid_rule "proj" (VStr "ds")
      (VStr "sandbox") (VStr "") Demo.qrid_kwargs Demo.init
    = (inr adapted, st')
    /\ warnings (trace st') = []
    /\ instantiations (trace st')
       = [[VStr "proj"; VStr "ds"; VStr "sandbox"; VStr ""]].
Proof.
  destruct (infer_rule_QRIDtoRID_with_map_dataset
              (W:=Demo.jobs_table) (Credentials:=string) Demo.cdr_consts
              Demo.ce_consts Demo.base_init Demo.render_mapping_query
              Demo.deid_map Demo.qrid_module eq_refl "proj" (VStr "ds")
              (VStr "sandbox") (VStr "") Demo.qrid_kwargs
              (VStr "map_dataset")
              ({[ map_dataset_param := VStr "map_dataset" ]}
               ∪ (<[ "project_id" := VStr "proj" ]>
                    (<[ "dataset_id" := VStr "ds" ]>
                       (<[ "sandbox_dataset_id" := VStr "sandbox" ]>
                          {[ "table_namer" := VStr "" ]}))))
              Demo.init)
    as (filtered & adapted & st' & Hinfer & _ & Htrace).
  - apply (bool_decide_unpack _). vm_compute. exact I.
  - vm_compute. reflexivity.
  - reflexivity.
  - reflexivity.
  - exists adapted, st'. split; [exact Hinfer |]. rewrite Htrace.
    split; reflexivity.
Defined.
